(** * The ART fault manager (runtime/fault_handler.cc)

    A shallow embedding of [art::FaultManager]: the registry of
    generated-code ranges (a singly linked list of heap nodes headed by
    [generated_code_ranges_]), the two handler vectors, the lifecycle flag
    and the dispatch routine [HandleFault], followed by the properties of
    the specification that concern them.

    The code is sequentialised: one call runs to completion before the next
    starts, so an atomic load or store is a plain read or write of the cell
    and its memory order is recorded but has no effect.  The mutex
    [generated_code_ranges_lock_] only excludes other writers and is
    therefore not represented.

    Logging through [VLOG] and the [TEST_NESTED_SIGNAL] block are left out.
    The calls that leave the fault manager are recorded in a trace.  A
    handler's [Action] is a collaborator: it is taken as a function that
    returns whether the handler claims the fault, and each call of it is
    recorded. *)

From stdpp Require Import base numbers option list strings gmap fin_maps.
From Stdlib Require Import ZArith Lia.

Local Open Scope Z_scope.

(** ** Machine data *)

(** [uintptr_t] and [size_t] on the 64-bit targets: integers modulo
    [2^64].  Pointers are addresses; [nullptr] is address 0. *)
Definition kBitsPerIntPtrT : Z := 64.
Definition uintptr_modulus : Z := 2 ^ kBitsPerIntPtrT.

Definition is_uintptr (a : Z) : Prop := 0 <= a < uintptr_modulus.

(** Unsigned subtraction [a - b] on [uintptr_t]. *)
Definition uintptr_sub (a b : Z) : Z := (a - b) mod uintptr_modulus.

Definition ptr : Type := Z.
Definition nullptr : ptr := 0.

(** [struct FaultManager::GeneratedCodeRange]. *)
Record GeneratedCodeRange : Type := mkGeneratedCodeRange {
  next : ptr;     (* std::atomic<GeneratedCodeRange*> next *)
  start : Z;      (* const void* start *)
  size : Z        (* size_t size *)
}.

Inductive memory_order : Type :=
| memory_order_relaxed
| memory_order_acquire
| memory_order_release.

Inductive MembarrierCommand : Type :=
| kRegisterPrivateExpedited
| kPrivateExpedited.

(** Calls that leave the fault manager, in the order they are made. *)
Inductive Event : Type :=
| Ev_Action (handler : ptr)                 (* handler->Action(sig, info, context) *)
| Ev_art_sigsegv_fault                      (* art_sigsegv_fault() *)
| Ev_AddSpecialSignalHandlerFn              (* AddSpecialSignalHandlerFn(SIGSEGV, &sa) *)
| Ev_RemoveSpecialSignalHandlerFn           (* RemoveSpecialSignalHandlerFn(SIGSEGV, ..) *)
| Ev_membarrier (cmd : MembarrierCommand)   (* art::membarrier(cmd) *)
| Ev_LOG_WARNING                            (* LOG(WARNING) << ... *)
| Ev_delete_handler (handler : ptr)         (* delete of a FaultHandler *)
| Ev_RunEmptyCheckpoint.                    (* GetThreadList()->RunEmptyCheckpoint() *)

Global Instance MembarrierCommand_eq_dec : EqDecision MembarrierCommand.
Proof. solve_decision. Defined.

Global Instance Event_eq_dec : EqDecision Event.
Proof. solve_decision. Defined.

(** The process state the fault manager works on: the live
    [GeneratedCodeRange] objects on the heap, the members of the
    [fault_manager] object, and the trace of outgoing calls. *)
Record FaultManager : Type := mkFaultManager {
  memory : gmap Z GeneratedCodeRange;
  generated_code_ranges_ : ptr;
  generated_code_handlers_ : list ptr;
  other_handlers_ : list ptr;
  initialized_ : bool;
  trace : list Event
}.

Definition set_memory (m : gmap Z GeneratedCodeRange) (s : FaultManager) :=
  mkFaultManager m (generated_code_ranges_ s) (generated_code_handlers_ s)
                 (other_handlers_ s) (initialized_ s) (trace s).
Definition set_generated_code_ranges_ (p : ptr) (s : FaultManager) :=
  mkFaultManager (memory s) p (generated_code_handlers_ s)
                 (other_handlers_ s) (initialized_ s) (trace s).
Definition set_generated_code_handlers_ (l : list ptr) (s : FaultManager) :=
  mkFaultManager (memory s) (generated_code_ranges_ s) l
                 (other_handlers_ s) (initialized_ s) (trace s).
Definition set_other_handlers_ (l : list ptr) (s : FaultManager) :=
  mkFaultManager (memory s) (generated_code_ranges_ s)
                 (generated_code_handlers_ s) l (initialized_ s) (trace s).
Definition set_initialized_ (b : bool) (s : FaultManager) :=
  mkFaultManager (memory s) (generated_code_ranges_ s)
                 (generated_code_handlers_ s) (other_handlers_ s) b (trace s).
Definition set_trace (t : list Event) (s : FaultManager) :=
  mkFaultManager (memory s) (generated_code_ranges_ s)
                 (generated_code_handlers_ s) (other_handlers_ s)
                 (initialized_ s) t.

(** The state of a freshly constructed [FaultManager]. *)
Definition FaultManager_new : FaultManager :=
  mkFaultManager ∅ nullptr [] [] false [].

(** ** The monad of the embedding *)

(** A call either returns a value in a new state, aborts the process
    ([CHECK] failure, [LOG(FATAL)]) in the state reached so far, has no
    defined behaviour (it dereferences or deletes something that is not a
    live node), or does not terminate (a loop exhausts a bound that no
    acyclic list can exhaust). *)
Inductive Outcome (A : Type) : Type :=
| Return (a : A) (s : FaultManager)
| Abort (s : FaultManager)
| Undefined
| Diverge.
Arguments Return {A} a s.
Arguments Abort {A} s.
Arguments Undefined {A}.
Arguments Diverge {A}.

Definition M (A : Type) : Type := FaultManager → Outcome A.

Definition ret {A} (a : A) : M A := λ s, Return a s.

Definition bind {A B} (m : M A) (f : A → M B) : M B :=
  λ s, match m s with
       | Return a s' => f a s'
       | Abort s' => Abort s'
       | Undefined => Undefined
       | Diverge => Diverge
       end.

Declare Scope fm_scope.
Delimit Scope fm_scope with fm.
Notation "x <- m ;; k" := (bind m (λ x, k))
  (at level 100, m at next level, right associativity) : fm_scope.
Notation "m ;; k" := (bind m (λ _, k))
  (at level 100, right associativity) : fm_scope.
Local Open Scope fm_scope.

Definition get {A} (f : FaultManager → A) : M A := λ s, Return (f s) s.
Definition modify (f : FaultManager → FaultManager) : M unit :=
  λ s, Return tt (f s).
Definition abort {A} : M A := λ s, Abort s.
Definition diverge {A} : M A := λ _, Diverge.

Definition emit (e : Event) : M unit :=
  modify (λ s, set_trace (trace s ++ [e]) s).

(** Modelled from the spec: the [CHECK] macro (base/logging.h is not among
    the sources); a failed check is fatal, it aborts the process. *)
Definition CHECK (c : bool) : M unit := if c then ret tt else abort.

(** The value a call returns, when it returns. *)
Definition returned {A} (o : Outcome A) : option A :=
  match o with Return a _ => Some a | _ => None end.

(** ** Heap and atomic accesses *)

(** Field reads of a node; reading through a pointer that is not a live
    node is undefined. *)
Definition deref {A} (f : GeneratedCodeRange → A) (p : ptr) : M A :=
  λ s, match memory s !! p with
       | Some r => Return (f r) s
       | None => Undefined
       end.

Definition load_start (range : ptr) : M Z := deref start range.  (* range->start *)
Definition load_size (range : ptr) : M Z := deref size range.    (* range->size *)

(** A [std::atomic<GeneratedCodeRange*>]: the list head
    [generated_code_ranges_] or the [next] field of a node. *)
Inductive Link : Type :=
| HeadLink                (* &generated_code_ranges_ *)
| NextLink (p : ptr).     (* &p->next *)

Definition Link_eqb (a b : Link) : bool :=
  match a, b with
  | HeadLink, HeadLink => true
  | NextLink p, NextLink q => p =? q
  | _, _ => false
  end.

Definition atomic_load (l : Link) (_ : memory_order) : M ptr :=
  match l with
  | HeadLink => get generated_code_ranges_
  | NextLink p => deref next p
  end.

Definition atomic_store (l : Link) (v : ptr) (_ : memory_order) : M unit :=
  match l with
  | HeadLink => modify (set_generated_code_ranges_ v)
  | NextLink p =>
      λ s, match memory s !! p with
           | Some r =>
               Return tt (set_memory
                 (<[p := mkGeneratedCodeRange v (start r) (size r)]> (memory s)) s)
           | None => Undefined
           end
  end.

(** [new GeneratedCodeRange{n, st, sz}]; the allocator's choice of address
    [p] is an input of the model.  The allocator returns an address that is
    neither null nor that of a live object. *)
Definition new_GeneratedCodeRange (p : ptr) (n : ptr) (st sz : Z) : M ptr :=
  modify (λ s, set_memory (<[p := mkGeneratedCodeRange n st sz]> (memory s)) s);;
  ret p.

(** [delete range]. *)
Definition delete_GeneratedCodeRange (p : ptr) : M unit :=
  λ s, match memory s !! p with
       | Some _ => Return tt (set_memory (delete p (memory s)) s)
       | None => Undefined
       end.

(** Bound on the iterations of a list walk: a walk over an acyclic list
    visits each live node at most once. *)
Definition loop_bound : M nat := get (λ s, S (base.size (memory s))).

(** ** The fault manager *)

Section FaultManager.

(** The collaborators that fault_handler.cc calls but does not define:
    the signal structures, the architecture-specific accessor of the fault
    program counter, the virtual [FaultHandler::Action], and the thread
    states with their distinguished [kRunnable]. *)
Variables siginfo_t ucontext_t : Type.
Variable GetFaultPc : siginfo_t → ucontext_t → Z.
Variable Action : ptr → Z → siginfo_t → ucontext_t → bool.
Variable ThreadState : Type.
Variable kRunnable : ThreadState.
Context `{EqDecision ThreadState}.

(** What the code reads from the rest of the runtime. *)
Record Thread : Type := mkThread {
  GetState : ThreadState;           (* thread->GetState() *)
  IsSharedHeld : bool               (* Locks::mutator_lock_->IsSharedHeld(thread) *)
}.

Record Runtime : Type := mkRuntime {
  IsStarted : bool;                 (* runtime->IsStarted() *)
  GetThreadList : bool              (* runtime->GetThreadList() != nullptr *)
}.

Record Env : Type := mkEnv {
  Thread_Current : option Thread;   (* Thread::Current(), None for nullptr *)
  Runtime_Current : option Runtime; (* Runtime::Current(), None for nullptr *)
  kIsDebugBuild : bool;             (* whether DCHECKs are compiled in *)
  membarrier : MembarrierCommand → Z  (* result of art::membarrier(cmd) *)
}.

(** Modelled from the spec: the [DCHECK] macro (base/logging.h is not among
    the sources), an assertion: a [CHECK] where DCHECKs are compiled in
    (debug builds), nothing otherwise. *)
Definition DCHECK (env : Env) (c : bool) : M unit :=
  if kIsDebugBuild env then CHECK c else ret tt.

(** [art_sigsegv_fault()]: the breakpoint target, which only logs. *)
Definition art_sigsegv_fault : M unit := emit Ev_art_sigsegv_fault.

(** *** Lifecycle *)

Definition Init (env : Env) : M unit :=
  initialized <- get initialized_;;
  CHECK (negb initialized);;
  emit Ev_AddSpecialSignalHandlerFn;;
  emit (Ev_membarrier kRegisterPrivateExpedited);;
  let result := membarrier env kRegisterPrivateExpedited in
  (if negb (result =? 0) then emit Ev_LOG_WARNING else ret tt);;
  modify (set_initialized_ true).

Definition Release : M unit :=
  initialized <- get initialized_;;
  if initialized then
    emit Ev_RemoveSpecialSignalHandlerFn;;
    modify (set_initialized_ false)
  else ret tt.

(** Modelled from the spec: [STLDeleteElements(&v)] (base/stl_util.h is not
    among the sources) destroys every handler of the vector [v], which
    [Shutdown] then holds empty. *)
Fixpoint STLDeleteContainerPointers (l : list ptr) : M unit :=
  match l with
  | [] => ret tt
  | h :: rest => emit (Ev_delete_handler h);; STLDeleteContainerPointers rest
  end.

(** The loop [while (range != nullptr) { next_range = range->next; delete
    range; range = next_range; }] of [Shutdown]. *)
Fixpoint delete_ranges (fuel : nat) (range : ptr) : M unit :=
  match fuel with
  | O => diverge
  | S fuel' =>
      if range =? nullptr then ret tt
      else
        next_range <- atomic_load (NextLink range) memory_order_relaxed;;
        delete_GeneratedCodeRange range;;
        delete_ranges fuel' next_range
  end.

Definition Shutdown : M unit :=
  initialized <- get initialized_;;
  if initialized then
    Release;;
    handlers <- get generated_code_handlers_;;
    STLDeleteContainerPointers handlers;;
    modify (set_generated_code_handlers_ []);;
    handlers <- get other_handlers_;;
    STLDeleteContainerPointers handlers;;
    modify (set_other_handlers_ []);;
    bound <- loop_bound;;
    range <- atomic_load HeadLink memory_order_acquire;;
    atomic_store HeadLink nullptr memory_order_release;;
    delete_ranges bound range
  else ret tt.

(** *** Handler registry *)

Definition AddHandler (env : Env) (handler : ptr) (generated_code : bool) : M unit :=
  initialized <- get initialized_;;
  DCHECK env initialized;;
  if generated_code then
    modify (λ s, set_generated_code_handlers_ (generated_code_handlers_ s ++ [handler]) s)
  else
    modify (λ s, set_other_handlers_ (other_handlers_ s ++ [handler]) s).

(** [std::find] followed by [erase]: the vector without the first
    occurrence of [handler], or [None] when [find] returns [end()]. *)
Fixpoint find_erase (handler : ptr) (l : list ptr) : option (list ptr) :=
  match l with
  | [] => None
  | h :: rest =>
      if h =? handler then Some rest
      else match find_erase handler rest with
           | Some rest' => Some (h :: rest')
           | None => None
           end
  end.

Definition RemoveHandler (handler : ptr) : M unit :=
  generated <- get generated_code_handlers_;;
  match find_erase handler generated with
  | Some generated' => modify (set_generated_code_handlers_ generated')
  | None =>
      other <- get other_handlers_;;
      match find_erase handler other with
      | Some other' => modify (set_other_handlers_ other')
      | None => abort   (* LOG(FATAL) << "Attempted to remove non existent handler" *)
      end
  end.

(** *** Range registry *)

Definition AddGeneratedCodeRange (new_address : ptr) (start size : Z) : M unit :=
  new_range <- new_GeneratedCodeRange new_address nullptr start size;;
  old_head <- atomic_load HeadLink memory_order_relaxed;;
  atomic_store (NextLink new_range) old_head memory_order_relaxed;;
  atomic_store HeadLink new_range memory_order_release;;
  emit (Ev_membarrier kPrivateExpedited).

(** The loop [while (range != nullptr && range->start != start)] of
    [RemoveGeneratedCodeRange]; returns the final [before] and [range]. *)
Fixpoint find_range (fuel : nat) (start : Z) (before : Link) (range : ptr)
  : M (Link * ptr) :=
  match fuel with
  | O => diverge
  | S fuel' =>
      if range =? nullptr then ret (before, range)
      else
        range_start <- load_start range;;
        if range_start =? start then ret (before, range)
        else
          let before := NextLink range in
          range <- atomic_load before memory_order_relaxed;;
          find_range fuel' start before range
  end.

(** The block of [RemoveGeneratedCodeRange] that runs under
    [generated_code_ranges_lock_]: find the node and unlink it. *)
Definition unlink_range (start : Z) : M ptr :=
  bound <- loop_bound;;
  let before := HeadLink in
  range <- atomic_load before memory_order_relaxed;;
  found <- find_range bound start before range;;
  let before := fst found in
  let range := snd found in
  (if negb (range =? nullptr) then
     next <- atomic_load (NextLink range) memory_order_relaxed;;
     if Link_eqb before HeadLink then
       atomic_store before next memory_order_release
     else
       atomic_store before next memory_order_relaxed
   else ret tt);;
  ret range.

Definition RemoveGeneratedCodeRange (env : Env) (start size : Z) : M unit :=
  range <- unlink_range start;;
  CHECK (negb (range =? nullptr));;
  range_start <- load_start range;;
  DCHECK env (range_start =? start);;
  range_size <- load_size range;;
  CHECK (range_size =? size);;
  match Runtime_Current env with
  | None => abort        (* CHECK(runtime != nullptr) *)
  | Some runtime =>
      (if IsStarted runtime && GetThreadList runtime then
         emit Ev_RunEmptyCheckpoint
       else ret tt);;
      delete_GeneratedCodeRange range
  end.

(** The membership test of one range:
    [fault_pc - reinterpret_cast<uintptr_t>(range->start) < range->size]. *)
Definition range_contains (fault_pc range_start range_size : Z) : bool :=
  uintptr_sub fault_pc range_start <? range_size.

(** The loop [while (range != nullptr)] of [IsInGeneratedCode]. *)
Fixpoint walk_ranges (fuel : nat) (fault_pc : Z) (range : ptr) : M bool :=
  match fuel with
  | O => diverge
  | S fuel' =>
      if range =? nullptr then ret false
      else
        range_start <- load_start range;;
        range_size <- load_size range;;
        if range_contains fault_pc range_start range_size then ret true
        else
          range <- atomic_load (NextLink range) memory_order_relaxed;;
          walk_ranges fuel' fault_pc range
  end.

Definition IsInGeneratedCode (env : Env) (siginfo : siginfo_t) (context : ucontext_t)
  : M bool :=
  match Thread_Current env with
  | None => ret false                                  (* no current thread *)
  | Some thread =>
      let state := GetState thread in
      if negb (bool_decide (state = kRunnable)) then ret false  (* not runnable *)
      else if negb (IsSharedHeld thread) then ret false         (* no lock *)
      else
        let fault_pc := GetFaultPc siginfo context in
        if fault_pc =? 0 then ret false                         (* no fault PC *)
        else
          bound <- loop_bound;;
          range <- atomic_load HeadLink memory_order_acquire;;
          walk_ranges bound fault_pc range
  end.

(** The guards of [IsInGeneratedCode] that precede the walk: there is a
    current thread, it is [kRunnable], it holds the mutator lock shared. *)
Definition thread_in_managed_code (env : Env) : Prop :=
  ∃ thread, Thread_Current env = Some thread ∧
            GetState thread = kRunnable ∧ IsSharedHeld thread = true.

(** What [HandleFaultByOtherHandlers] asserts before it consults a
    handler: [self != nullptr], [Runtime::Current() != nullptr] and
    [Runtime::Current()->IsStarted()]. *)
Definition other_handlers_asserts (env : Env) : bool :=
  bool_decide (is_Some (Thread_Current env)) &&
  bool_decide (is_Some (Runtime_Current env)) &&
  from_option IsStarted false (Runtime_Current env).

(** [HandleFaultByOtherHandlers] aborts on one of its assertions: the
    vector is not empty, DCHECKs are compiled in, and one of them fails. *)
Definition other_dispatch_aborts (env : Env) (s : FaultManager) : bool :=
  negb (bool_decide (other_handlers_ s = [])) &&
  kIsDebugBuild env && negb (other_handlers_asserts env).

(** *** Dispatch *)

(** [for (const auto& handler : handlers) if (handler->Action(..)) return
    true;], with [false] for a loop that runs to the end. *)
Fixpoint any_Action (handlers : list ptr) (sig : Z) (info : siginfo_t)
  (context : ucontext_t) : M bool :=
  match handlers with
  | [] => ret false
  | handler :: rest =>
      emit (Ev_Action handler);;
      if Action handler sig info context then ret true
      else any_Action rest sig info context
  end.

Definition HandleFaultByOtherHandlers (env : Env) (sig : Z) (info : siginfo_t)
  (context : ucontext_t) : M bool :=
  other <- get other_handlers_;;
  match other with
  | [] => ret false
  | _ =>
      let self := Thread_Current env in
      DCHECK env (bool_decide (is_Some self));;
      DCHECK env (bool_decide (is_Some (Runtime_Current env)));;
      DCHECK env (from_option IsStarted false (Runtime_Current env));;
      any_Action other sig info context
  end.

(** [HandleFault]; [sig] is the signal number. *)
Definition HandleFault (env : Env) (sig : Z) (info : siginfo_t)
  (context : ucontext_t) : M bool :=
  in_generated_code <- IsInGeneratedCode env info context;;
  claimed <- (if in_generated_code then
                generated <- get generated_code_handlers_;;
                any_Action generated sig info context
              else ret false);;
  if claimed then ret true
  else
    claimed <- HandleFaultByOtherHandlers env sig info context;;
    if claimed then ret true
    else art_sigsegv_fault;; ret false.

(** [art_fault_handler], the entry point installed by [Init], on the
    static [fault_manager] object. *)
Definition art_fault_handler (env : Env) (sig : Z) (info : siginfo_t)
  (context : ucontext_t) : M bool :=
  HandleFault env sig info context.

End FaultManager.

Arguments Thread_Current {ThreadState} _.
Arguments Runtime_Current {ThreadState} _.
Arguments kIsDebugBuild {ThreadState} _.
Arguments membarrier {ThreadState} _ _.
Arguments GetState {ThreadState} _.
Arguments IsSharedHeld {ThreadState} _.
Arguments mkThread {ThreadState} _ _.
Arguments mkEnv {ThreadState} _ _ _ _.
Arguments DCHECK {ThreadState} _ _.
Arguments other_dispatch_aborts {ThreadState} _ _.
Arguments other_handlers_asserts {ThreadState} _.
Arguments thread_in_managed_code {ThreadState} kRunnable _.
Arguments Init {ThreadState} _.
Arguments AddHandler {ThreadState} _ _ _.
Arguments RemoveGeneratedCodeRange {ThreadState} _ _ _.
Arguments IsInGeneratedCode {siginfo_t ucontext_t} GetFaultPc {ThreadState} kRunnable {_} _ _ _.
Arguments any_Action {siginfo_t ucontext_t} Action _ _ _ _.
Arguments HandleFaultByOtherHandlers {siginfo_t ucontext_t} Action {ThreadState} _ _ _ _.
Arguments HandleFault {siginfo_t ucontext_t} GetFaultPc Action {ThreadState} kRunnable {_} _ _ _ _.

(** ** The registry as a list *)

(** [is_seg h p q l]: in heap [h], following [next] from [p] passes through
    exactly the nodes [l], in that order, and arrives at [q]. *)
Fixpoint is_seg (h : gmap Z GeneratedCodeRange) (p q : ptr) (l : list ptr) : Prop :=
  match l with
  | [] => p = q
  | a :: l' =>
      p = a ∧ p ≠ nullptr ∧ ∃ r, h !! p = Some r ∧ is_seg h (next r) q l'
  end.

(** A null-terminated list. *)
Definition is_list (h : gmap Z GeneratedCodeRange) (p : ptr) (l : list ptr) : Prop :=
  is_seg h p nullptr l.

(** The registry of [s] consists of the nodes [l], head first. *)
Definition registry (s : FaultManager) (l : list ptr) : Prop :=
  is_list (memory s) (generated_code_ranges_ s) l.

(** [r] is a currently registered range of [s]. *)
Definition registered (s : FaultManager) (r : GeneratedCodeRange) : Prop :=
  ∃ l p, registry s l ∧ p ∈ l ∧ memory s !! p = Some r.

(** The test of [IsInGeneratedCode] at the node at address [p]. *)
Definition node_contains (h : gmap Z GeneratedCodeRange) (fault_pc : Z) (p : ptr) : bool :=
  match h !! p with
  | Some r => range_contains fault_pc (start r) (size r)
  | None => false
  end.

(** The node at [p] has start address [a]. *)
Definition node_starts (h : gmap Z GeneratedCodeRange) (a : Z) (p : ptr) : bool :=
  match h !! p with
  | Some r => start r =? a
  | None => false
  end.

(** The address of the [std::atomic] that links to the node following the
    nodes [l], when the walk started with [before]. *)
Definition last_link (before : Link) (l : list ptr) : Link :=
  match last l with
  | Some p => NextLink p
  | None => before
  end.

(** The state after the link that leads out of the nodes [l1] (the head
    when [l1] is empty, the [next] field of its last node otherwise) has
    been redirected to [target]. *)
Definition unlinked (l1 : list ptr) (target : ptr) (s : FaultManager) : FaultManager :=
  match last l1 with
  | None => set_generated_code_ranges_ target s
  | Some q =>
      match memory s !! q with
      | Some rq =>
          set_memory (<[q := mkGeneratedCodeRange target (start rq) (size rq)]>
                        (memory s)) s
      | None => s
      end
  end.

(** The consulted prefix of a handler vector: every handler up to and
    including the first one that claims. *)
Fixpoint consulted {A} (claims : A → bool) (l : list A) : list A :=
  match l with
  | [] => []
  | a :: l' => a :: (if claims a then [] else consulted claims l')
  end.

(** [s] with the calls [evs] appended to its trace. *)
Definition after_calls (evs : list Event) (s : FaultManager) : FaultManager :=
  set_trace (trace s ++ evs) s.

(** [s'] agrees with [s] on everything but the trace of outgoing calls. *)
Definition same_manager (s s' : FaultManager) : Prop :=
  memory s' = memory s ∧
  generated_code_ranges_ s' = generated_code_ranges_ s ∧
  generated_code_handlers_ s' = generated_code_handlers_ s ∧
  other_handlers_ s' = other_handlers_ s ∧
  initialized_ s' = initialized_ s.

(** ** The handlers of fault_handler.cc *)

(** Modelled from the spec: [IsAligned<n>(x)] (base/bit_utils.h is not among
    the sources), for [n] a power of two: the low bits of [x] are zero. *)
Definition IsAligned (n : Z) (x : Z) : bool := Z.land x (n - 1) =? 0.

(** The size of a pointer, [sizeof(void* )], on the 64-bit targets. *)
Definition sizeof_pointer : Z := kBitsPerIntPtrT / 8.

(** The reads that [NullPointerHandler::IsValidMethod] makes, "without
    guarding from another fault": a computation carries the addresses it
    has read through, in order, and yields [None] once a read faults. *)
Definition Reads (A : Type) : Type := list ptr * option A.

Definition reads_ret {A} (a : A) : Reads A := ([], Some a).

Definition reads_bind {A B} (m : Reads A) (f : A → Reads B) : Reads B :=
  match m with
  | (log, Some a) => let '(log', b) := f a in (log ++ log', b)
  | (log, None) => (log, None)
  end.

(** A read through [p] of memory described by [mem] ([None] where reading
    faults). *)
Definition read_through (mem : ptr → option ptr) (p : ptr) : Reads ptr :=
  ([p], mem p).

Section Handlers.

Variables siginfo_t ucontext_t : Type.
Variable GetFaultPc : siginfo_t → ucontext_t → Z.
Variable ThreadState : Type.
Variable kRunnable : ThreadState.
Context `{EqDecision ThreadState}.

(** Collaborators of the handlers: the alignment of heap objects
    ([kObjectAlignment], runtime_globals.h), the raw memory behind
    [ArtMethod::GetDeclaringClassAddressWithoutBarrier()->AsMirrorPtr()] and
    behind [mirror::Object::GetClass<kVerifyNone, kWithoutReadBarrier>()],
    and the architecture-specific [FaultManager::GetFaultSp]. *)
Variable kObjectAlignment : Z.
Variable DeclaringClass : ptr → option ptr.
Variable GetClass : ptr → option ptr.
Variable GetFaultSp : ucontext_t → Z.

(** The constructors: each registers the new handler [this]. *)
Definition NullPointerHandler_new (env : Env ThreadState) (this : ptr) : M unit :=
  AddHandler env this true.

Definition SuspensionHandler_new (env : Env ThreadState) (this : ptr) : M unit :=
  AddHandler env this true.

Definition StackOverflowHandler_new (env : Env ThreadState) (this : ptr) : M unit :=
  AddHandler env this true.

Definition JavaStackTraceHandler_new (env : Env ThreadState) (this : ptr) : M unit :=
  AddHandler env this false.

(** [NullPointerHandler::IsValidMethod(method)]. *)
Definition IsValidMethod (method : ptr) : Reads bool :=
  if (method =? nullptr) || negb (IsAligned sizeof_pointer method) then
    reads_ret false                                  (* null or unaligned method *)
  else
    reads_bind (read_through DeclaringClass method) (λ klass,
    if (klass =? nullptr) || negb (IsAligned kObjectAlignment klass) then
      reads_ret false                                (* null or unaligned class *)
    else
      reads_bind (read_through GetClass klass) (λ class_class,
      if (class_class =? nullptr) || negb (IsAligned kObjectAlignment class_class) then
        reads_ret false                              (* null or unaligned class_class *)
      else
        reads_bind (read_through GetClass class_class) (λ class_class_class,
        if negb (class_class =? class_class_class) then
          reads_ret false                            (* invalid class_class *)
        else reads_ret true))).

(** [JavaStackTraceHandler::Action(sig, siginfo, context)]; the signal
    number is unused.  The result is paired with the frame passed to
    [self->SetTopOfStack], if that call was made (it is followed by
    [self->DumpJavaStack]); the logging is left out. *)
Definition JavaStackTraceHandler_Action (env : Env ThreadState) (sig : Z)
  (siginfo : siginfo_t) (context : ucontext_t) : M (bool * option Z) :=
  in_generated_code <- IsInGeneratedCode GetFaultPc kRunnable env siginfo context;;
  if in_generated_code then
    let sp := GetFaultSp context in
    CHECK (negb (sp =? 0));;
    ret (false, Some sp)
  else ret (false, None).

End Handlers.

Arguments NullPointerHandler_new {ThreadState} _ _.
Arguments SuspensionHandler_new {ThreadState} _ _.
Arguments StackOverflowHandler_new {ThreadState} _ _.
Arguments JavaStackTraceHandler_new {ThreadState} _ _.
Arguments JavaStackTraceHandler_Action {siginfo_t ucontext_t} GetFaultPc {ThreadState}
  kRunnable {_} GetFaultSp _ _ _ _.

(** The [(start, size)] pairs of the nodes [l] of heap [h]. *)
Definition ranges_of (h : gmap Z GeneratedCodeRange) (l : list ptr) : list (Z * Z) :=
  omap (λ p, (λ r, (start r, size r)) <$> h !! p) l.

(** The addresses of the [n] bytes that start at [a], in [uintptr_t]
    arithmetic. *)
Definition in_bytes_from (a n pc : Z) : Prop :=
  ∃ i, 0 <= i < n ∧ pc = (a + i) mod uintptr_modulus.

(** The test of [IsInGeneratedCode] on a [(start, size)] pair. *)
Definition range_in (fault_pc : Z) (r : Z * Z) : bool :=
  range_contains fault_pc r.1 r.2.

(** The registry seen as an association list: the size recorded for the
    first pair that starts at [a], and the list without that pair. *)
Fixpoint erase_start (a : Z) (rs : list (Z * Z)) : option (Z * list (Z * Z)) :=
  match rs with
  | [] => None
  | (a', n') :: rs' =>
      if a' =? a then Some (n', rs')
      else match erase_start a rs' with
           | Some (n, rest) => Some (n, (a', n') :: rest)
           | None => None
           end
  end.

(** The guards of [IsInGeneratedCode], as one boolean. *)
Definition passes_guards {siginfo_t ucontext_t : Type}
  (GetFaultPc : siginfo_t → ucontext_t → Z) {ThreadState : Type}
  (kRunnable : ThreadState) `{EqDecision ThreadState}
  (env : Env ThreadState) (info : siginfo_t) (context : ucontext_t) : bool :=
  match Thread_Current env with
  | None => false
  | Some thread =>
      bool_decide (GetState thread = kRunnable) && IsSharedHeld thread &&
      negb (GetFaultPc info context =? 0)
  end.

(** ** Naming a signal code

    [SIGSEGV] and the codes [SEGV_MAPERR] and [SEGV_ACCERR] come from
    <signal.h>; they are taken as given.  The [switch] picks the first label
    equal to [code]. *)
Section SignalInfo.
  Variables SIGSEGV SEGV_MAPERR SEGV_ACCERR : Z.

Definition SignalCodeName (sig code : Z) : string :=
  if negb (sig =? SIGSEGV) then "UNKNOWN"
  else if code =? SEGV_MAPERR then "SEGV_MAPERR"
  else if code =? SEGV_ACCERR then "SEGV_ACCERR"
  else if code =? 8 then "SEGV_MTEAERR"
  else if code =? 9 then "SEGV_MTESERR"
  else "UNKNOWN".

End SignalInfo.

(** ** A concrete platform

    Used to run the model on the scenarios of the specification: the
    machine context is the fault program counter itself, a thread state is
    a boolean ([true] for runnable), and a handler claims when the oracle
    [claims] says so. *)
Definition example_GetFaultPc (_ : unit) (context : Z) : Z := context.

Definition example_Action (claims : ptr → bool) (handler : ptr) (_ : Z) (_ : unit)
  (_ : Z) : bool := claims handler.

Definition example_env (thread : option (Thread bool)) (debug : bool) : Env bool :=
  mkEnv thread (Some (mkRuntime true true)) debug (λ _, 0).

Definition example_runnable : option (Thread bool) := Some (mkThread true true).

(** A manager with no range, no generated-code handler and the single
    other handler 5. *)
Definition example_other_only : FaultManager :=
  mkFaultManager ∅ nullptr [] [5] true [].

(** The registry after [AddGeneratedCodeRange(0x1000, 0x200)] on a fresh
    manager, the node being allocated at address 0x7000. *)
Definition example_registry : FaultManager :=
  mkFaultManager {[ 0x7000 := mkGeneratedCodeRange nullptr 0x1000 0x200 ]}
                 0x7000 [] [] true [].

(** Three ranges, registered in the order [0x1000, 0x1100), [0x2000, 0x2100),
    [0x3000, 0x3100), so that the last one added is the head. *)
Definition example_three_ranges : FaultManager :=
  mkFaultManager
    (<[ 0x7020 := mkGeneratedCodeRange 0x7010 0x3000 0x100 ]>
       (<[ 0x7010 := mkGeneratedCodeRange 0x7000 0x2000 0x100 ]>
          {[ 0x7000 := mkGeneratedCodeRange nullptr 0x1000 0x100 ]}))
    0x7020 [] [] true [].

(** The generated-code handlers 1, 2, 3 and the other handler 5, over the
    registry [example_registry]. *)
Definition example_handlers : FaultManager :=
  set_other_handlers_ [5] (set_generated_code_handlers_ [1; 2; 3] example_registry).

(** A registry holding one range of 32 bytes that starts 16 bytes below the
    top of the address space. *)
Definition wrapping_registry : FaultManager :=
  mkFaultManager {[ 0x7000 := mkGeneratedCodeRange nullptr (uintptr_modulus - 16) 32 ]}
                 0x7000 [] [] true [].


(** The memory behind a method at 0x5000 whose declaring class is at 0x6000,
    the class of that class being at 0x6100 and its own class; reading
    anywhere else faults. *)
Definition example_DeclaringClass (p : ptr) : option ptr :=
  if p =? 0x5000 then Some 0x6000 else None.

Definition example_GetClass (p : ptr) : option ptr :=
  if (p =? 0x6000) || (p =? 0x6100) then Some 0x6100 else None.

(** A fault stack pointer that does not depend on the context. *)
Definition example_GetFaultSp (_ : Z) : Z := 0x7fff0000.

(** * Properties *)

(** ** List segments *)

Section Segments.
Implicit Types (h : gmap Z GeneratedCodeRange) (p q : ptr) (l : list ptr).

Lemma is_seg_app h p q l1 l2 :
  is_seg h p q (l1 ++ l2) ↔ ∃ m, is_seg h p m l1 ∧ is_seg h m q l2.
Proof.
  revert p. induction l1 as [|a l1 IH]; intros p; simpl.
  - split; [intros H; exists p; done | intros (m & -> & H); done].
  - split.
    + intros (-> & Hne & r & Hr & Hs). apply IH in Hs as (m & H1 & H2).
      exists m. split; [|done]. repeat split; [done|]. exists r. done.
    + intros (m & (-> & Hne & r & Hr & H1) & H2).
      repeat split; [done|]. exists r. split; [done|]. apply IH. eauto.
Qed.

Lemma is_list_functional h p l1 l2 :
  is_list h p l1 → is_list h p l2 → l1 = l2.
Proof.
  unfold is_list. revert p l2.
  induction l1 as [|a l1 IH]; intros p [|b l2]; simpl; [done| | |].
  - intros -> (_ & Hne & _). done.
  - intros (_ & Hne & _) ->. done.
  - intros (-> & _ & r & Hr & H1) (-> & _ & r' & Hr' & H2).
    simplify_eq. f_equal. eauto.
Qed.

Lemma is_seg_lookup h p q l x :
  is_seg h p q l → x ∈ l → x ≠ nullptr ∧ is_Some (h !! x).
Proof.
  revert p. induction l as [|a l IH]; intros p; simpl.
  - intros _ Hx. by apply not_elem_of_nil in Hx.
  - intros (-> & Hne & r & Hr & Hs) [->|Hx]%elem_of_cons; eauto.
Qed.

(** A null-terminated list visits no node twice. *)
Lemma is_list_NoDup h p l : is_list h p l → NoDup l.
Proof.
  revert p. induction l as [|a l IH]; intros p Hl.
  - constructor.
  - pose proof Hl as (-> & Hne & r & Hr & Hs). constructor; [|by eapply IH].
    intros Ha. apply list_elem_of_split in Ha as (k1 & k2 & ->).
    pose proof Hs as Hs'. apply is_seg_app in Hs' as (m & _ & H2).
    pose proof H2 as (-> & _).
    pose proof (is_list_functional _ _ _ _ Hl H2) as Heq.
    apply (f_equal length) in Heq. simpl in Heq. rewrite length_app in Heq.
    simpl in Heq. lia.
Qed.

(** Hence it is no longer than the heap is large. *)
Lemma is_list_length h p l : is_list h p l → (length l ≤ base.size h)%nat.
Proof.
  intros Hl. rewrite <- (size_dom (D := gset Z)).
  apply submseteq_length, NoDup_submseteq; [by eapply is_list_NoDup|].
  intros x Hx. apply elem_of_elements, elem_of_dom.
  by eapply is_seg_lookup.
Qed.

(** A segment only depends on the nodes it passes through. *)
Lemma is_seg_frame h h' p q l :
  (∀ x, x ∈ l → h' !! x = h !! x) → is_seg h p q l → is_seg h' p q l.
Proof.
  revert p. induction l as [|a l IH]; intros p Hf; simpl; [done|].
  intros (-> & Hne & r & Hr & Hs). repeat split; [done|].
  exists r. split.
  - rewrite Hf; [done | apply elem_of_cons; by left].
  - apply IH; [|done]. intros x Hx. apply Hf, elem_of_cons. by right.
Qed.

Lemma is_seg_snoc h p q l a :
  is_seg h p q (l ++ [a]) ↔
  ∃ r, is_seg h p a l ∧ a ≠ nullptr ∧ h !! a = Some r ∧ next r = q.
Proof.
  rewrite is_seg_app. simpl. split.
  - intros (m & H1 & -> & Hne & r & Hr & Hq). exists r. done.
  - intros (r & H1 & Hne & Hr & Hq). exists a. split; [done|].
    repeat split; [done|]. exists r. done.
Qed.

End Segments.

(** ** Walks over the registry *)

Ltac mstep :=
  unfold bind, ret, get, modify, abort, diverge, emit, CHECK,
    load_start, load_size, deref, atomic_load, atomic_store,
    delete_GeneratedCodeRange, loop_bound; simpl.

Lemma eqb_nullptr_false (p : ptr) : p ≠ nullptr → (p =? nullptr) = false.
Proof. intros H. by apply Z.eqb_neq. Qed.

Lemma uintptr_modulus_pos : 0 < uintptr_modulus.
Proof. reflexivity. Qed.

Lemma range_contains_spec pc a n :
  range_contains pc a n = true ↔ uintptr_sub pc a < n.
Proof. unfold range_contains. apply Z.ltb_lt. Qed.

(** For a range that does not wrap around the address space the unsigned
    test is membership in the interval. *)
Lemma range_contains_interval pc a n :
  is_uintptr pc → 0 <= a → 0 <= n → a + n <= uintptr_modulus →
  range_contains pc a n = true ↔ a <= pc < a + n.
Proof.
  unfold is_uintptr. intros Hpc Ha Hn0 Hn. rewrite range_contains_spec.
  unfold uintptr_sub. pose proof uintptr_modulus_pos as Hpos.
  destruct (Z_lt_le_dec pc a) as [Hlt|Hle].
  - replace ((pc - a) mod uintptr_modulus) with (pc - a + uintptr_modulus).
    + lia.
    + apply Z.mod_unique with (q := -1); lia.
  - rewrite Z.mod_small by lia. lia.
Qed.

(** The lookup loop on a well-formed list: it returns, leaves the state as
    it was, and answers whether some node passes the test. *)
Lemma walk_ranges_list s fuel pc p l :
  is_list (memory s) p l → (length l < fuel)%nat →
  walk_ranges fuel pc p s = Return (existsb (node_contains (memory s) pc) l) s.
Proof.
  unfold is_list. revert p fuel. induction l as [|a l IH]; intros p fuel Hl Hf.
  - simpl in Hl. subst p. destruct fuel as [|fuel]; [simpl in Hf; lia|].
    reflexivity.
  - destruct Hl as (-> & Hne & r & Hr & Hs).
    destruct fuel as [|fuel]; [simpl in Hf; lia|].
    simpl. rewrite (eqb_nullptr_false _ Hne). mstep. rewrite Hr. simpl.
    unfold node_contains at 1. rewrite Hr.
    destruct (range_contains pc (start r) (size r)); simpl; [done|].
    rewrite Hr. apply IH; [done|]. simpl in Hf. lia.
Qed.

(** The lookup loop stores nothing, whatever the heap looks like. *)
Lemma walk_ranges_readonly fuel pc p s b s' :
  walk_ranges fuel pc p s = Return b s' → s' = s.
Proof.
  revert p. induction fuel as [|fuel IH]; intros p; simpl; [done|].
  mstep. destruct (p =? nullptr); [intros ?; by simplify_eq|].
  destruct (memory s !! p) as [r|] eqn:Hr; simpl; [|done].
  rewrite Hr. simpl.
  destruct (range_contains pc (start r) (size r)); simpl;
    [intros ?; by simplify_eq|].
  rewrite Hr. apply IH.
Qed.

Lemma walk_ranges_no_abort fuel pc p s s' :
  walk_ranges fuel pc p s ≠ Abort s'.
Proof.
  revert p. induction fuel as [|fuel IH]; intros p; simpl; [done|].
  mstep. destruct (p =? nullptr); [done|].
  destruct (memory s !! p) as [r|] eqn:Hr; simpl; [|done].
  rewrite Hr. simpl.
  destruct (range_contains pc (start r) (size r)); simpl; [done|].
  rewrite Hr. apply IH.
Qed.

Lemma existsb_node_contains h pc l :
  existsb (node_contains h pc) l = true ↔
  ∃ p r, p ∈ l ∧ h !! p = Some r ∧ uintptr_sub pc (start r) < size r.
Proof.
  rewrite existsb_exists. split.
  - intros (p & Hp%list_elem_of_In & Hc). unfold node_contains in Hc.
    destruct (h !! p) as [r|] eqn:Hr; [|done].
    exists p, r. by rewrite <- range_contains_spec.
  - intros (p & r & Hp & Hr & Hc). exists p. split; [by apply list_elem_of_In|].
    unfold node_contains. rewrite Hr. by apply range_contains_spec.
Qed.

Lemma registered_iff s l r :
  registry s l → registered s r ↔ ∃ p, p ∈ l ∧ memory s !! p = Some r.
Proof.
  intros Hl. split.
  - intros (l' & p & Hl' & Hp & Hr).
    rewrite (is_list_functional _ _ _ _ Hl Hl'). eauto.
  - intros (p & Hp & Hr). exists l, p. done.
Qed.

(** ** Classification *)

Section Classification.
Context {siginfo_t ucontext_t : Type} (GetFaultPc : siginfo_t → ucontext_t → Z).
Context {ThreadState : Type} (kRunnable : ThreadState) `{EqDecision ThreadState}.
Implicit Types (env : Env ThreadState) (info : siginfo_t) (context : ucontext_t).
Implicit Types (s : FaultManager) (l : list ptr).


(** Past its guards, [IsInGeneratedCode] is the walk from the head. *)
Lemma IsInGeneratedCode_guarded env info context s :
  thread_in_managed_code kRunnable env → GetFaultPc info context ≠ 0 →
  IsInGeneratedCode GetFaultPc kRunnable env info context s =
  walk_ranges (S (base.size (memory s))) (GetFaultPc info context)
              (generated_code_ranges_ s) s.
Proof.
  intros (thread & Ht & Hst & Hlock) Hpc. unfold IsInGeneratedCode.
  rewrite Ht, Hst, Hlock, bool_decide_eq_true_2 by done. simpl.
  apply Z.eqb_neq in Hpc. rewrite Hpc. reflexivity.
Qed.

(** A guard fails, or the call is the walk from the head. *)
Lemma IsInGeneratedCode_cases env info context s :
  IsInGeneratedCode GetFaultPc kRunnable env info context s = Return false s ∨
  IsInGeneratedCode GetFaultPc kRunnable env info context s =
  walk_ranges (S (base.size (memory s))) (GetFaultPc info context)
              (generated_code_ranges_ s) s.
Proof.
  unfold IsInGeneratedCode.
  destruct (Thread_Current env) as [thread|]; [|by left].
  destruct (negb _); [by left|]. destruct (negb _); [by left|].
  destruct (_ =? 0); [by left|]. by right.
Qed.

(** With the guards passed and a well-formed registry, the lookup returns
    without changing anything, and answers [true] exactly when the unsigned
    test [fault_pc - start < size] succeeds at a registered range. *)
Lemma IsInGeneratedCode_unsigned_test env info context s l :
  thread_in_managed_code kRunnable env → GetFaultPc info context ≠ 0 →
  registry s l →
  ∃ b, IsInGeneratedCode GetFaultPc kRunnable env info context s = Return b s ∧
       (b = true ↔
        ∃ r, registered s r ∧
             uintptr_sub (GetFaultPc info context) (start r) < size r).
Proof.
  intros Hth Hpc Hl. rewrite IsInGeneratedCode_guarded by done.
  pose proof (is_list_length _ _ _ Hl) as Hlen.
  rewrite (walk_ranges_list s _ _ _ l Hl) by lia.
  eexists. split; [reflexivity|].
  rewrite existsb_node_contains. split.
  - intros (p & r & Hp & Hr & Hc). exists r. split; [|done].
    apply (registered_iff s l); eauto.
  - intros (r & Hreg & Hc). apply (registered_iff s l) in Hreg as (p & Hp & Hr); eauto.
Qed.

(** An address inside [[start, start+size)] passes the unsigned test,
    whether or not the range wraps. *)
Lemma in_interval_range_contains pc a n :
  is_uintptr pc → 0 <= a → a <= pc < a + n →
  range_contains pc a n = true.
Proof.
  unfold is_uintptr. intros Hpc Ha Hin. apply range_contains_spec.
  unfold uintptr_sub. rewrite Z.mod_small by lia. lia.
Qed.

(** A fault PC inside a registered range, on a thread that passes the
    guards, is classified as in generated code. *)
Lemma IsInGeneratedCode_inside env info context s l :
  thread_in_managed_code kRunnable env → GetFaultPc info context ≠ 0 →
  is_uintptr (GetFaultPc info context) → registry s l →
  (∃ r, registered s r ∧ 0 <= start r ∧
        start r <= GetFaultPc info context < start r + size r) →
  IsInGeneratedCode GetFaultPc kRunnable env info context s = Return true s.
Proof.
  intros Hth Hpc Hty Hl (r & Hreg & Ha & Hin).
  destruct (IsInGeneratedCode_unsigned_test env info context s l)
    as (b & Hrun & Hb); [done..|].
  rewrite Hrun. f_equal. apply Hb. exists r. split; [done|].
  apply range_contains_spec. by apply in_interval_range_contains.
Qed.


(** C1 (as amended): for a fault on a thread that has a current-thread
    identity, is Runnable and holds the mutator lock shared, with a nonzero
    fault PC, [IsInGeneratedCode] returns true iff the unsigned test
    [fault_pc - start < size] succeeds at some registered range, whatever
    the registered ranges are; when no registered range wraps around the
    address space ([start + size <= 2^64]) this is the same as the fault PC
    lying in [[start, start+size)] of some registered range, and the test
    then rejects every address below [start]. *)
Theorem C1_IsInGeneratedCode_iff_in_range env info context s l :
  thread_in_managed_code kRunnable env →
  GetFaultPc info context ≠ 0 →
  is_uintptr (GetFaultPc info context) →
  registry s l →
  ∃ b, IsInGeneratedCode GetFaultPc kRunnable env info context s = Return b s ∧
       (b = true ↔
        ∃ r, registered s r ∧
             uintptr_sub (GetFaultPc info context) (start r) < size r) ∧
       ((∀ r, registered s r →
              0 <= start r ∧ 0 <= size r ∧
              start r + size r <= uintptr_modulus) →
        (b = true ↔
         ∃ r, registered s r ∧
              start r <= GetFaultPc info context < start r + size r) ∧
        (∀ r, registered s r → GetFaultPc info context < start r →
              range_contains (GetFaultPc info context) (start r) (size r)
              = false)).
Proof.
  intros Hth Hpc Hty Hl.
  destruct (IsInGeneratedCode_unsigned_test env info context s l)
    as (b & Hrun & Hb); [done..|].
  exists b. split; [done|]. split; [done|]. intros Hwf. split.
  - rewrite Hb. split; intros (r & Hreg & Hc); exists r; (split; [done|]);
      destruct (Hwf r Hreg) as (Ha & Hn & Hw);
      [apply range_contains_interval | apply range_contains_spec];
      try done; [by apply range_contains_spec | by apply range_contains_interval].
  - intros r Hreg Hlt. destruct (Hwf r Hreg) as (Ha & Hn & Hw).
    apply not_true_is_false. rewrite range_contains_interval by done. lia.
Qed.

(** On a well-formed registry the lookup returns. *)
Lemma IsInGeneratedCode_returns env info context s l :
  registry s l →
  ∃ b, IsInGeneratedCode GetFaultPc kRunnable env info context s = Return b s.
Proof.
  intros Hl.
  destruct (IsInGeneratedCode_cases env info context s) as [Hrun|Hrun];
    rewrite Hrun; [by eexists|].
  pose proof (is_list_length _ _ _ Hl) as Hlen.
  rewrite (walk_ranges_list s _ _ _ l Hl) by lia. by eexists.
Qed.

(** C5: [IsInGeneratedCode] returns false when a guard fails (no current
    thread, thread not Runnable, mutator lock not held shared, fault PC
    zero), whatever the registry contains and whether or not it is
    well formed. *)
Theorem C5_guard_failure_not_in_generated_code env info context s :
  Thread_Current env = None ∨
  (∃ thread, Thread_Current env = Some thread ∧
             (GetState thread ≠ kRunnable ∨ IsSharedHeld thread = false)) ∨
  GetFaultPc info context = 0 →
  IsInGeneratedCode GetFaultPc kRunnable env info context s = Return false s.
Proof.
  unfold IsInGeneratedCode. intros [Hnone|[(thread & Ht & Hg)|Hpc]].
  - by rewrite Hnone.
  - rewrite Ht. destruct Hg as [Hst|Hlock].
    + by rewrite bool_decide_eq_false_2.
    + rewrite Hlock. by destruct (bool_decide _).
  - destruct (Thread_Current env) as [thread|]; [|done].
    destruct (bool_decide _); [|done]. destruct (IsSharedHeld thread); [|done].
    simpl. by rewrite Hpc.
Qed.

(** C10: [IsInGeneratedCode] only loads.  Whenever it returns, the whole
    state (list head, every node, both handler vectors, the initialized
    flag) is the one it was called in, so a second call with the same
    inputs returns the same answer; it never aborts; and on a well-formed
    registry it does return. *)
Theorem C10_IsInGeneratedCode_read_only env info context s :
  (∀ b s', IsInGeneratedCode GetFaultPc kRunnable env info context s = Return b s' →
           s' = s ∧ IsInGeneratedCode GetFaultPc kRunnable env info context s' = Return b s') ∧
  (∀ s', IsInGeneratedCode GetFaultPc kRunnable env info context s ≠ Abort s') ∧
  (∀ l, registry s l → ∃ b, IsInGeneratedCode GetFaultPc kRunnable env info context s = Return b s).
Proof.
  split; [|split].
  - intros b s' H. assert (s' = s) as ->; [|done].
    destruct (IsInGeneratedCode_cases env info context s) as [Hrun|Hrun];
      rewrite Hrun in H.
    + by simplify_eq.
    + by eapply walk_ranges_readonly.
  - intros s'.
    destruct (IsInGeneratedCode_cases env info context s) as [Hrun|Hrun];
      rewrite Hrun; [done|]. apply walk_ranges_no_abort.
  - intros l Hl.
    destruct (IsInGeneratedCode_cases env info context s) as [Hrun|Hrun];
      rewrite Hrun; [by eexists|].
    pose proof (is_list_length _ _ _ Hl) as Hlen.
    rewrite (walk_ranges_list s _ _ _ l Hl) by lia. by eexists.
Qed.

End Classification.

(** ** Dispatch *)

Lemma after_calls_nil s : after_calls [] s = s.
Proof. unfold after_calls. rewrite app_nil_r. by destruct s. Qed.

Lemma after_calls_app evs evs' s :
  after_calls evs' (after_calls evs s) = after_calls (evs ++ evs') s.
Proof. unfold after_calls. destruct s; simpl. by rewrite app_assoc. Qed.

Lemma art_sigsegv_fault_run s :
  art_sigsegv_fault s = Return tt (after_calls [Ev_art_sigsegv_fault] s).
Proof. reflexivity. Qed.

Lemma after_calls_same_manager evs s : same_manager s (after_calls evs s).
Proof. by destruct s. Qed.


Section Dispatch.
Context {siginfo_t ucontext_t : Type} (GetFaultPc : siginfo_t → ucontext_t → Z).
Context (Action : ptr → Z → siginfo_t → ucontext_t → bool).
Context {ThreadState : Type} (kRunnable : ThreadState) `{EqDecision ThreadState}.
Implicit Types (env : Env ThreadState) (info : siginfo_t) (context : ucontext_t).
Implicit Types (s : FaultManager) (l : list ptr) (sig : Z).


(** A handler loop consults the handlers in order up to and including the
    first that claims, and reports whether one did. *)
Lemma any_Action_consulted l sig info context s :
  let claims h := Action h sig info context in
  any_Action Action l sig info context s =
  Return (existsb claims l) (after_calls (Ev_Action <$> consulted claims l) s).
Proof.
  simpl. revert s. induction l as [|a l IH]; intros s; simpl.
  - unfold ret. by rewrite after_calls_nil.
  - mstep. destruct (Action a sig info context); simpl; [done|].
    rewrite IH. f_equal. apply (after_calls_app [_]).
Qed.

Lemma HandleFaultByOtherHandlers_outcome env sig info context s :
  let claims h := Action h sig info context in
  let other := other_handlers_ s in
  HandleFaultByOtherHandlers Action env sig info context s =
  if bool_decide (other = []) then Return false s
  else if kIsDebugBuild env && negb (other_handlers_asserts env) then Abort s
  else Return (existsb claims other)
              (after_calls (Ev_Action <$> consulted claims other) s).
Proof.
  simpl. unfold HandleFaultByOtherHandlers, bind, get, ret.
  destruct (other_handlers_ s) as [|h other] eqn:Hother.
  { by rewrite bool_decide_eq_true_2. }
  rewrite (bool_decide_eq_false_2 (h :: other = [])) by done.
  unfold other_handlers_asserts, DCHECK.
  pose proof (any_Action_consulted (h :: other) sig info context s) as Hloop.
  destruct (kIsDebugBuild env); simpl; [|exact Hloop].
  unfold CHECK.
  destruct (bool_decide (is_Some (Thread_Current env))); simpl; [|done].
  destruct (bool_decide (is_Some (Runtime_Current env))); simpl; [|done].
  destruct (from_option IsStarted false (Runtime_Current env)); simpl; [|done].
  exact Hloop.
Qed.


Lemma consulted_no_claim {A} (claims : A → bool) (l : list A) :
  (∀ h, h ∈ l → claims h = false) →
  consulted claims l = l ∧ existsb claims l = false.
Proof.
  induction l as [|a l IH]; intros Hno; simpl; [done|].
  rewrite (Hno a) by (by left). simpl.
  destruct IH as [-> ->]; [|done]. intros h Hh. apply Hno. by right.
Qed.


(** The first generated-code handler that claims ends the dispatch. *)
Lemma HandleFault_first_claim env sig info context s A B rest :
  IsInGeneratedCode GetFaultPc kRunnable env info context s = Return true s →
  generated_code_handlers_ s = A :: B :: rest →
  Action A sig info context = false →
  Action B sig info context = true →
  HandleFault GetFaultPc Action kRunnable env sig info context s =
  Return true (after_calls [Ev_Action A; Ev_Action B] s).
Proof.
  intros Hclass Hgen HA HB. unfold HandleFault, bind at 1. rewrite Hclass.
  unfold bind at 1. unfold bind, get. rewrite any_Action_consulted, Hgen.
  simpl. by rewrite HA, HB.
Qed.

(** C2 (as amended): with generated-code handlers [A, B, ...] in
    registration order, for a fault whose PC is inside a registered range
    and that is delivered on a thread that has a current-thread identity,
    is Runnable and holds the mutator lock shared, with a nonzero fault PC:
    if A does not claim and B claims then [HandleFault] returns true,
    having called A's [Action] and then B's and nothing else (no later
    generated-code handler, no other handler, not [art_sigsegv_fault]). *)
Theorem C2_first_claiming_handler_wins env sig info context s l A B rest :
  thread_in_managed_code kRunnable env →
  GetFaultPc info context ≠ 0 →
  is_uintptr (GetFaultPc info context) →
  registry s l →
  (∃ r, registered s r ∧ 0 <= start r ∧
        start r <= GetFaultPc info context < start r + size r) →
  generated_code_handlers_ s = A :: B :: rest →
  Action A sig info context = false →
  Action B sig info context = true →
  HandleFault GetFaultPc Action kRunnable env sig info context s =
  Return true (after_calls [Ev_Action A; Ev_Action B] s).
Proof.
  intros Hth Hpc Hty Hl Hin Hgen HA HB.
  apply (HandleFault_first_claim env sig info context s A B rest); try done.
  by apply (IsInGeneratedCode_inside GetFaultPc kRunnable env info context s l).
Qed.



(** The dispatch of a fault that nobody claims, once classification has
    returned [in_generated]. *)
Lemma HandleFault_unclaimed env sig info context s in_generated :
  IsInGeneratedCode GetFaultPc kRunnable env info context s
    = Return in_generated s →
  (∀ h, h ∈ generated_code_handlers_ s → Action h sig info context = false) →
  (∀ h, h ∈ other_handlers_ s → Action h sig info context = false) →
  other_dispatch_aborts env s = false →
  HandleFault GetFaultPc Action kRunnable env sig info context s =
  Return false
    (after_calls
       ((Ev_Action <$> (if in_generated then generated_code_handlers_ s else [])) ++
        (Ev_Action <$> other_handlers_ s) ++ [Ev_art_sigsegv_fault]) s).
Proof.
  intros Hclass Hgen Hother Hok.
  destruct (consulted_no_claim _ _ Hgen) as [Hcg Heg].
  destruct (consulted_no_claim _ _ Hother) as [Hco Heo].
  unfold HandleFault, bind at 1. rewrite Hclass.
  assert ((if in_generated
           then generated <- get generated_code_handlers_;;
                any_Action Action generated sig info context
           else ret false) s =
          Return false
            (after_calls (Ev_Action <$>
               (if in_generated then generated_code_handlers_ s else [])) s))
    as Hfirst.
  { destruct in_generated.
    - unfold bind, get. by rewrite any_Action_consulted, Hcg, Heg.
    - unfold ret. by rewrite after_calls_nil. }
  unfold bind at 1. rewrite Hfirst. unfold bind at 1.
  rewrite HandleFaultByOtherHandlers_outcome.
  set (s1 := after_calls _ s).
  assert (other_handlers_ s1 = other_handlers_ s) as Hsame by done.
  rewrite Hsame, Hco, Heo.
  assert ((if bool_decide (other_handlers_ s = []) then Return false s1
           else if kIsDebugBuild env && negb (other_handlers_asserts env)
                then Abort s1
                else Return false (after_calls (Ev_Action <$> other_handlers_ s) s1)) =
          Return false (after_calls (Ev_Action <$> other_handlers_ s) s1))
    as ->.
  { unfold other_dispatch_aborts in Hok.
    destruct (bool_decide (other_handlers_ s = [])) eqn:Hnil; simpl in Hok.
    - apply bool_decide_eq_true in Hnil. rewrite Hnil. simpl.
      by rewrite after_calls_nil.
    - by rewrite Hok. }
  unfold bind. rewrite art_sigsegv_fault_run. unfold ret. f_equal.
  subst s1. by rewrite !after_calls_app.
Qed.

Lemma filter_marker_Ev_Action (l : list ptr) :
  filter (λ e, e = Ev_art_sigsegv_fault) (Ev_Action <$> l) = [].
Proof.
  induction l as [|a l IH]; [done|]. simpl. by rewrite filter_cons_False.
Qed.

(** C9 (as amended): for a fault that no handler of either vector claims
    (both vectors may be empty), [HandleFault] calls [art_sigsegv_fault]
    exactly once, as its last call, and returns false, provided
    [HandleFaultByOtherHandlers] does not abort on one of its assertions:
    the other-handlers vector is empty, or DCHECKs are compiled out, or
    there is a current thread and a started runtime. *)
Theorem C9_unclaimed_fault_reaches_marker env sig info context s l :
  registry s l →
  (∀ h, h ∈ generated_code_handlers_ s → Action h sig info context = false) →
  (∀ h, h ∈ other_handlers_ s → Action h sig info context = false) →
  other_dispatch_aborts env s = false →
  ∃ in_generated calls,
    IsInGeneratedCode GetFaultPc kRunnable env info context s
      = Return in_generated s ∧
    calls =
      (Ev_Action <$> (if in_generated then generated_code_handlers_ s else [])) ++
      (Ev_Action <$> other_handlers_ s) ++ [Ev_art_sigsegv_fault] ∧
    HandleFault GetFaultPc Action kRunnable env sig info context s
      = Return false (after_calls calls s) ∧
    length (filter (λ e, e = Ev_art_sigsegv_fault) calls) = 1%nat.
Proof.
  intros Hl Hgen Hother Hok.
  destruct (IsInGeneratedCode_returns GetFaultPc kRunnable env info context s l Hl)
    as [in_generated Hclass].
  exists in_generated. eexists. split_and!; [done|reflexivity| |].
  - by apply HandleFault_unclaimed.
  - rewrite !filter_app, !length_app, !filter_marker_Ev_Action. reflexivity.
Qed.

End Dispatch.

(** ** Registering handlers *)

(** [AddHandler] appends to the vector the flag selects; in a debug build
    it first asserts that the manager is initialized. *)
Lemma AddHandler_appends {ThreadState} (env : Env ThreadState) handler generated_code s :
  AddHandler env handler generated_code s =
  if kIsDebugBuild env && negb (initialized_ s) then Abort s
  else Return tt
         (if generated_code
          then set_generated_code_handlers_ (generated_code_handlers_ s ++ [handler]) s
          else set_other_handlers_ (other_handlers_ s ++ [handler]) s).
Proof.
  unfold AddHandler, DCHECK, CHECK, bind, get, modify, ret, abort.
  destruct (kIsDebugBuild env), (initialized_ s), generated_code; reflexivity.
Qed.

(** ** Removing a range *)

Section Unlink.
Implicit Types (s : FaultManager) (l : list ptr) (p q : ptr) (a : Z).

Lemma last_link_cons before x l :
  last_link before (x :: l) = last_link (NextLink x) l.
Proof. unfold last_link. rewrite last_cons. by destruct (last l). Qed.

(** The search loop stops at the first node that starts at [a], or at the
    end of the list, with [before] the link that led there. *)
Lemma find_range_seg s a fuel before p q l :
  is_seg (memory s) p q l →
  Forall (λ x, node_starts (memory s) a x = false) l →
  q = nullptr ∨ node_starts (memory s) a q = true →
  (length l < fuel)%nat →
  find_range fuel a before p s = Return (last_link before l, q) s.
Proof.
  revert p before fuel.
  induction l as [|x l IH]; intros p before fuel Hseg Hall Hq Hf.
  - simpl in Hseg. subst q. destruct fuel as [|fuel]; [simpl in Hf; lia|].
    simpl. unfold ret, last_link. simpl.
    destruct (p =? nullptr) eqn:Hp; [done|].
    destruct Hq as [->|Hq]; [done|]. mstep. unfold node_starts in Hq.
    destruct (memory s !! p) as [r|]; [|done]. simpl. by rewrite Hq.
  - destruct Hseg as (-> & Hne & r & Hr & Hseg).
    apply Forall_cons in Hall as [Hx Hall].
    destruct fuel as [|fuel]; [simpl in Hf; lia|].
    simpl. rewrite (eqb_nullptr_false _ Hne). mstep. rewrite Hr. simpl.
    unfold node_starts in Hx. rewrite Hr in Hx. rewrite Hx, Hr.
    rewrite last_link_cons. apply IH; [done..|]. simpl in Hf. lia.
Qed.

Lemma atomic_store_unlinked l1 target order s :
  (∀ q, q ∈ l1 → is_Some (memory s !! q)) →
  atomic_store (last_link HeadLink l1) target order s =
  Return tt (unlinked l1 target s).
Proof.
  intros Hlive. unfold last_link, unlinked.
  destruct (last l1) as [q|] eqn:Hlast; [|done]. simpl.
  destruct (Hlive q) as [rq Hq].
  { apply last_Some in Hlast as [l' ->]. apply elem_of_app. right. by left. }
  by rewrite Hq.
Qed.

(** No node starts at [a]: nothing is unlinked and null is returned. *)
Lemma unlink_range_not_found s l a :
  registry s l →
  Forall (λ x, node_starts (memory s) a x = false) l →
  unlink_range a s = Return nullptr s.
Proof.
  intros Hl Hall. unfold unlink_range, bind, loop_bound, atomic_load, get.
  cbv beta iota.
  pose proof (is_list_length _ _ _ Hl) as Hlen.
  rewrite (find_range_seg s a _ HeadLink _ nullptr l) by (auto; lia).
  reflexivity.
Qed.

(** The first node that starts at [a] is unlinked and returned. *)
Lemma unlink_range_found s l1 p l2 rp a :
  registry s (l1 ++ p :: l2) →
  Forall (λ x, node_starts (memory s) a x = false) l1 →
  memory s !! p = Some rp → start rp = a →
  unlink_range a s = Return p (unlinked l1 (next rp) s).
Proof.
  intros Hl Hall Hp Ha. unfold unlink_range, bind, loop_bound, atomic_load, get.
  cbv beta iota.
  pose proof (is_list_length _ _ _ Hl) as Hlen. rewrite length_app in Hlen.
  pose proof Hl as Hl'. apply is_seg_app in Hl' as (m & Hseg1 & Hseg2).
  pose proof Hseg2 as (-> & Hne & _).
  rewrite (find_range_seg s a _ HeadLink _ p l1); [|done..| |lia].
  2:{ right. unfold node_starts. rewrite Hp. by apply Z.eqb_eq. }
  simpl. rewrite (eqb_nullptr_false _ Hne). simpl. unfold deref.
  rewrite Hp. unfold ret.
  assert (∀ order, atomic_store (last_link HeadLink l1) (next rp) order s =
                   Return tt (unlinked l1 (next rp) s)) as Hstore.
  { intros order. apply atomic_store_unlinked. intros q Hq.
    by eapply is_seg_lookup. }
  destruct (Link_eqb _ _); by rewrite Hstore.
Qed.

(** The head node starts at [a]: the search needs one iteration, whatever
    the rest of the heap looks like. *)
Lemma unlink_range_head s p rp a :
  generated_code_ranges_ s = p → p ≠ nullptr →
  memory s !! p = Some rp → start rp = a →
  unlink_range a s = Return p (set_generated_code_ranges_ (next rp) s).
Proof.
  intros Hhead Hne Hp Ha.
  unfold unlink_range, bind, loop_bound, atomic_load, get. cbv beta iota.
  rewrite (find_range_seg s a _ HeadLink _ p []); [|done|done| |simpl; lia].
  2:{ right. unfold node_starts. rewrite Hp. by apply Z.eqb_eq. }
  simpl. rewrite (eqb_nullptr_false _ Hne). simpl. unfold deref.
  by rewrite Hp.
Qed.

(** What unlinking changes: the one link before the node. *)
Lemma unlinked_registry s l1 p l2 rp :
  registry s (l1 ++ p :: l2) → memory s !! p = Some rp →
  let s' := unlinked l1 (next rp) s in
  registry s' (l1 ++ l2) ∧
  memory s' !! p = Some rp ∧
  is_list (memory s') p (p :: l2) ∧
  (∀ x, last l1 ≠ Some x → memory s' !! x = memory s !! x) ∧
  (∀ q rq, last l1 = Some q → memory s !! q = Some rq →
           memory s' !! q =
           Some (mkGeneratedCodeRange (next rp) (start rq) (size rq))) ∧
  generated_code_ranges_ s' =
    match last l1 with
    | Some _ => generated_code_ranges_ s
    | None => next rp
    end ∧
  generated_code_handlers_ s' = generated_code_handlers_ s ∧
  other_handlers_ s' = other_handlers_ s ∧
  initialized_ s' = initialized_ s ∧
  trace s' = trace s.
Proof.
  intros Hl Hp. simpl. unfold registry in *.
  pose proof (is_list_NoDup _ _ _ Hl) as Hnd.
  pose proof Hl as Hl'. apply is_seg_app in Hl' as (m & Hseg1 & Hseg2).
  pose proof Hseg2 as (-> & Hne & rp' & Hp' & Hseg3).
  assert (rp' = rp) as -> by congruence.
  unfold unlinked. destruct (last l1) as [q|] eqn:Hlast.
  - apply last_Some in Hlast as [l1' ->].
    apply is_seg_snoc in Hseg1 as (rq & Hseg1 & Hqne & Hq & Hnext).
    rewrite Hq. simpl.
    rewrite <- app_assoc in Hnd. simpl in Hnd.
    apply NoDup_app in Hnd as (Hnd1 & Hdisj & Hnd2).
    apply NoDup_cons in Hnd2 as (Hq2 & Hnd2).
    assert (q ≠ p) as Hqp. { intros ->. apply Hq2. by left. }
    assert (q ∉ l2) as Hql2. { intros Hin. apply Hq2. by right. }
    assert (q ∉ l1') as Hql1. { intros Hin. apply (Hdisj q Hin). by left. }
    set (h' := <[q:=mkGeneratedCodeRange (next rp) (start rq) (size rq)]> (memory s)).
    assert (is_seg h' (next rp) nullptr l2) as Hseg3'.
    { eapply is_seg_frame; [|done]. intros x Hx.
      apply lookup_insert_ne. by intros ->. }
    assert (h' !! p = Some rp) as Hp2. { unfold h'. by rewrite lookup_insert_ne. }
    split_and!; try done.
    + unfold is_list. rewrite <- app_assoc. apply is_seg_app. exists q. split.
      * eapply is_seg_frame; [|done]. intros x Hx.
        apply lookup_insert_ne. by intros ->.
      * simpl. split_and!; [done..|]. eexists. split; [apply lookup_insert_eq|].
        done.
    + unfold is_list. simpl. split_and!; [done..|]. eexists. done.
    + intros x Hx. apply lookup_insert_ne. by intros ->.
    + intros q' rq' [= <-] Hq'. unfold h'. rewrite lookup_insert_eq. congruence.
  - apply last_None in Hlast as ->. simpl in *.
    split_and!; done.
Qed.


Lemma first_start_split (h : gmap Z GeneratedCodeRange) a l :
  (∃ p, p ∈ l ∧ node_starts h a p = true) →
  ∃ l1 p l2, l = l1 ++ p :: l2 ∧
             Forall (λ x, node_starts h a x = false) l1 ∧
             node_starts h a p = true.
Proof.
  induction l as [|x l IH]; intros (p & Hp & Hst).
  - by apply not_elem_of_nil in Hp.
  - destruct (node_starts h a x) eqn:Hx.
    + exists [], x, l. split_and!; done.
    + apply elem_of_cons in Hp as [->|Hp]; [congruence|].
      destruct IH as (l1 & p' & l2 & -> & Hall & Hp'); [by exists p|].
      exists (x :: l1), p', l2. split_and!; [done| |done].
      by apply Forall_cons.
Qed.

End Unlink.

Section Remove.
Context {ThreadState : Type}.
Implicit Types (env : Env ThreadState) (s : FaultManager) (l : list ptr).

(** [RemoveGeneratedCodeRange] once the unlink step has returned the node
    [p]: the call aborts if the size differs or there is no runtime, and
    otherwise deletes [p], after an empty checkpoint if the runtime is
    started. *)
Lemma RemoveGeneratedCodeRange_after_unlink env s s' p rp a n :
  unlink_range a s = Return p s' → p ≠ nullptr →
  memory s' !! p = Some rp → start rp = a →
  RemoveGeneratedCodeRange env a n s =
  if size rp =? n then
    match Runtime_Current env with
    | None => Abort s'
    | Some runtime =>
        Return tt (set_memory (delete p (memory s'))
                     (if IsStarted runtime && GetThreadList runtime
                      then after_calls [Ev_RunEmptyCheckpoint] s' else s'))
    end
  else Abort s'.
Proof.
  intros Hunlink Hne Hp' Ha.
  unfold RemoveGeneratedCodeRange, bind at 1. rewrite Hunlink.
  unfold bind, CHECK, DCHECK, load_start, load_size, deref, ret, abort.
  rewrite (eqb_nullptr_false _ Hne). simpl. rewrite Hp'.
  rewrite Ha, Z.eqb_refl.
  assert ((if kIsDebugBuild env then CHECK true
           else λ s0 : FaultManager, Return () s0) s' = Return () s') as ->.
  { by destruct (kIsDebugBuild env). }
  rewrite Hp'. destruct (size rp =? n); [|done].
  destruct (Runtime_Current env) as [runtime|]; [|done].
  unfold delete_GeneratedCodeRange, emit, modify.
  destruct (IsStarted runtime && GetThreadList runtime); simpl; by rewrite Hp'.
Qed.

Lemma RemoveGeneratedCodeRange_found env s l1 p l2 rp a n :
  registry s (l1 ++ p :: l2) →
  Forall (λ x, node_starts (memory s) a x = false) l1 →
  memory s !! p = Some rp → start rp = a →
  RemoveGeneratedCodeRange env a n s =
  let s' := unlinked l1 (next rp) s in
  if size rp =? n then
    match Runtime_Current env with
    | None => Abort s'
    | Some runtime =>
        Return tt (set_memory (delete p (memory s'))
                     (if IsStarted runtime && GetThreadList runtime
                      then after_calls [Ev_RunEmptyCheckpoint] s' else s'))
    end
  else Abort s'.
Proof.
  intros Hl Hall Hp Ha.
  destruct (unlinked_registry s l1 p l2 rp Hl Hp) as (_ & Hp' & _).
  pose proof Hl as Hl'. apply is_seg_app in Hl' as (m & _ & (-> & Hne & _)).
  apply RemoveGeneratedCodeRange_after_unlink; [|done..].
  by apply (unlink_range_found s l1 p l2).
Qed.

(** C4: when the registry contains a node that starts at [a],
    [RemoveGeneratedCodeRange] unlinks the first such node [p] by rewriting
    one link only: the list head when [p] is first, the [next] field of
    [p]'s predecessor otherwise.  In the state [s'] in which the unlink step
    leaves the manager, the node [p] keeps its [next], [start] and [size],
    every node other than the predecessor is untouched, the predecessor
    keeps its [start] and [size], and the handler vectors, the flag and the
    trace are as before; so the lookup loop positioned at [p] still walks
    [p] and then every node that followed it, which together with the nodes
    before [p] are all the nodes that remain in the list.  The call then
    goes on from [s']: it aborts there when the size differs or there is no
    runtime, and otherwise frees [p], after an empty checkpoint when the
    runtime is started. *)
Theorem C4_unlink_rewrites_one_link env s l a n :
  registry s l →
  (∃ r, registered s r ∧ start r = a) →
  ∃ l1 p l2 rp s',
    l = l1 ++ p :: l2 ∧
    Forall (λ x, node_starts (memory s) a x = false) l1 ∧
    memory s !! p = Some rp ∧ start rp = a ∧
    unlink_range a s = Return p s' ∧
    RemoveGeneratedCodeRange env a n s =
      (if size rp =? n then
         match Runtime_Current env with
         | None => Abort s'
         | Some runtime =>
             Return tt (set_memory (delete p (memory s'))
                          (if IsStarted runtime && GetThreadList runtime
                           then after_calls [Ev_RunEmptyCheckpoint] s' else s'))
         end
       else Abort s') ∧
    memory s' !! p = Some rp ∧
    (∀ x, last l1 ≠ Some x → memory s' !! x = memory s !! x) ∧
    (∀ q rq, last l1 = Some q → memory s !! q = Some rq →
             memory s' !! q =
             Some (mkGeneratedCodeRange (next rp) (start rq) (size rq))) ∧
    generated_code_ranges_ s' =
      match last l1 with
      | Some _ => generated_code_ranges_ s
      | None => next rp
      end ∧
    generated_code_handlers_ s' = generated_code_handlers_ s ∧
    other_handlers_ s' = other_handlers_ s ∧
    initialized_ s' = initialized_ s ∧
    trace s' = trace s ∧
    registry s' (l1 ++ l2) ∧
    is_list (memory s') p (p :: l2) ∧
    (∀ pc, walk_ranges (S (base.size (memory s'))) pc p s' =
           Return (existsb (node_contains (memory s') pc) (p :: l2)) s').
Proof.
  intros Hl (r & Hreg & Hstart).
  apply (registered_iff s l r Hl) in Hreg as (p0 & Hp0 & Hr0).
  destruct (first_start_split (memory s) a l) as (l1 & p & l2 & -> & Hall & Hst).
  { exists p0. split; [done|]. unfold node_starts. rewrite Hr0.
    by apply Z.eqb_eq. }
  unfold node_starts in Hst.
  destruct (memory s !! p) as [rp|] eqn:Hp; [|done].
  apply Z.eqb_eq in Hst.
  exists l1, p, l2, rp, (unlinked l1 (next rp) s).
  destruct (unlinked_registry s l1 p l2 rp Hl Hp)
    as (Hlist & Hp' & Hwalk & Hframe & Hpred & Hhead & Hgen & Hother & Hinit
        & Htrace).
  split_and!; try done.
  - by apply (unlink_range_found s l1 p l2).
  - by apply (RemoveGeneratedCodeRange_found env s l1 p l2).
  - intros pc. apply walk_ranges_list; [done|].
    pose proof (is_list_length _ _ _ Hwalk). lia.
Qed.

(** A successful removal leaves the registry without the removed node. *)
Lemma RemoveGeneratedCodeRange_registry env s l1 p l2 rp a s' :
  registry s (l1 ++ p :: l2) →
  Forall (λ x, node_starts (memory s) a x = false) l1 →
  memory s !! p = Some rp → start rp = a →
  RemoveGeneratedCodeRange env a (size rp) s = Return tt s' →
  registry s' (l1 ++ l2) ∧ memory s' !! p = None.
Proof.
  intros Hl Hall Hp Ha.
  rewrite (RemoveGeneratedCodeRange_found env s l1 p l2 rp a) by done.
  simpl. rewrite Z.eqb_refl.
  destruct (Runtime_Current env) as [runtime|]; [|done].
  intros [= <-].
  destruct (unlinked_registry s l1 p l2 rp Hl Hp) as (Hreg & _).
  pose proof (is_list_NoDup _ _ _ Hl) as Hnd.
  apply NoDup_app in Hnd as (_ & Hdisj & [Hp2 _]%NoDup_cons).
  assert (p ∉ l1 ++ l2) as Hnotin.
  { intros [H1|H2]%elem_of_app; [|done]. apply (Hdisj p H1). by left. }
  split.
  - unfold registry in *.
    destruct (IsStarted runtime && GetThreadList runtime); simpl;
      (eapply is_seg_frame; [|exact Hreg]); intros x Hx;
      apply lookup_delete_ne; by intros ->.
  - destruct (IsStarted runtime && GetThreadList runtime); simpl;
      apply lookup_delete_eq.
Qed.

(** C7: removing a handler that is in neither vector aborts; removing a
    range at a start address that no registered range has aborts; and
    removing a range at the start address of a registered range with a
    size other than the recorded one aborts. *)
Theorem C7_removals_of_unregistered_are_fatal env s :
  (∀ handler,
     handler ∉ generated_code_handlers_ s → handler ∉ other_handlers_ s →
     RemoveHandler handler s = Abort s) ∧
  (∀ l a n,
     registry s l → (∀ r, registered s r → start r ≠ a) →
     RemoveGeneratedCodeRange env a n s = Abort s) ∧
  (∀ l a n,
     registry s l → (∃ r, registered s r ∧ start r = a) →
     (∀ r, registered s r → start r = a → size r ≠ n) →
     ∃ s', RemoveGeneratedCodeRange env a n s = Abort s').
Proof.
  split_and!.
  - intros handler Hgen Hother. unfold RemoveHandler, bind, get.
    assert (∀ l, handler ∉ l → find_erase handler l = None) as Hfind.
    { induction l as [|h l IH]; intros Hnot; simpl; [done|].
      apply not_elem_of_cons in Hnot as [Hne Hnot].
      destruct (Z.eqb_spec h handler); [congruence|]. by rewrite IH. }
    by rewrite (Hfind _ Hgen), (Hfind _ Hother).
  - intros l a n Hl Hnone. unfold RemoveGeneratedCodeRange, bind at 1.
    rewrite (unlink_range_not_found s l a); [done..|].
    apply Forall_forall. intros x Hx.
    destruct (is_seg_lookup _ _ _ _ _ Hl Hx) as [_ [r Hr]].
    unfold node_starts. rewrite Hr. apply Z.eqb_neq, Hnone.
    apply (registered_iff s l); eauto.
  - intros l a n Hl (r & Hreg & Hstart) Hsize.
    apply (registered_iff s l _ Hl) in Hreg as (p0 & Hp0 & Hr0).
    destruct (first_start_split (memory s) a l) as (l1 & p & l2 & -> & Hall & Hp).
    { exists p0. split; [done|]. unfold node_starts. rewrite Hr0.
      by apply Z.eqb_eq. }
    unfold node_starts in Hp. destruct (memory s !! p) as [rp|] eqn:Hrp; [|done].
    apply Z.eqb_eq in Hp.
    rewrite (RemoveGeneratedCodeRange_found env s l1 p l2 rp a n) by done.
    simpl. assert (size rp ≠ n) as Hne.
    { apply Hsize; [|done]. apply (registered_iff s _ _ Hl). exists p.
      split; [|done]. apply elem_of_app. right. by left. }
    apply Z.eqb_neq in Hne. rewrite Hne. eauto.
Qed.

End Remove.

(** ** Adding a range, and the round trip *)

Lemma AddGeneratedCodeRange_run p a n s :
  AddGeneratedCodeRange p a n s =
  Return tt
    (after_calls [Ev_membarrier kPrivateExpedited]
       (set_generated_code_ranges_ p
          (set_memory
             (<[p := mkGeneratedCodeRange (generated_code_ranges_ s) a n]> (memory s))
             s))).
Proof.
  unfold AddGeneratedCodeRange, new_GeneratedCodeRange. mstep.
  rewrite lookup_insert_eq. simpl. by rewrite insert_insert_eq.
Qed.

(** The new node becomes the head of the list. *)
Lemma AddGeneratedCodeRange_registry p a n s l s' :
  p ≠ nullptr → memory s !! p = None → registry s l →
  AddGeneratedCodeRange p a n s = Return tt s' →
  registry s' (p :: l) ∧
  memory s' !! p = Some (mkGeneratedCodeRange (generated_code_ranges_ s) a n).
Proof.
  intros Hne Hfresh Hl. rewrite AddGeneratedCodeRange_run. intros [= <-].
  unfold registry, is_list. simpl. rewrite lookup_insert_eq.
  split_and!; [done..| |done]. eexists. split; [done|]. simpl.
  eapply is_seg_frame; [|exact Hl]. intros x Hx.
  apply lookup_insert_ne. intros ->.
  destruct (is_seg_lookup _ _ _ _ _ Hl Hx) as [_ [r Hr]]. congruence.
Qed.

(** What the lookup loop answers only depends on the heap. *)
Lemma walk_ranges_memory fuel pc p s1 s2 :
  memory s1 = memory s2 →
  returned (walk_ranges fuel pc p s1) = returned (walk_ranges fuel pc p s2).
Proof.
  intros Hmem. revert p. induction fuel as [|fuel IH]; intros p; simpl; [done|].
  mstep. destruct (p =? nullptr); [done|]. rewrite <- Hmem.
  destruct (memory s1 !! p) as [r|] eqn:Hr; simpl; [|done].
  rewrite <- Hmem, Hr. simpl.
  destruct (range_contains pc (start r) (size r)); simpl; [done|].
  rewrite <- Hmem, Hr. apply IH.
Qed.

Section RoundTrip.
Context {siginfo_t ucontext_t : Type} (GetFaultPc : siginfo_t → ucontext_t → Z).
Context {ThreadState : Type} (kRunnable : ThreadState) `{EqDecision ThreadState}.
Implicit Types (env : Env ThreadState) (info : siginfo_t) (context : ucontext_t).
Implicit Types (s : FaultManager).


(** [IsInGeneratedCode] answers the same in two states with the same heap
    and list head. *)
Lemma IsInGeneratedCode_same_registry env info context s1 s2 :
  memory s1 = memory s2 →
  generated_code_ranges_ s1 = generated_code_ranges_ s2 →
  returned (IsInGeneratedCode GetFaultPc kRunnable env info context s1) =
  returned (IsInGeneratedCode GetFaultPc kRunnable env info context s2).
Proof.
  intros Hmem Hhead. unfold IsInGeneratedCode.
  destruct (Thread_Current env) as [thread|]; [|reflexivity].
  destruct (negb _); [reflexivity|]. destruct (negb _); [reflexivity|].
  destruct (_ =? 0); [reflexivity|].
  unfold bind, loop_bound, atomic_load, get. cbv beta iota.
  rewrite Hmem, Hhead. by apply walk_ranges_memory.
Qed.

(** C3: [AddGeneratedCodeRange(a, n)] followed at once by
    [RemoveGeneratedCodeRange(a, n)] returns, and leaves the heap, the list
    head, both handler vectors and the initialized flag as they were, so
    [IsInGeneratedCode] answers every fault as it did before the add.
    (Without a runtime the removal aborts on [CHECK(runtime != nullptr)],
    after it has restored the list head.) *)
Theorem C3_add_remove_round_trip env s p a n :
  p ≠ nullptr → memory s !! p = None →
  match Runtime_Current env with
  | Some _ =>
      ∃ s', (AddGeneratedCodeRange p a n;; RemoveGeneratedCodeRange env a n) s
            = Return tt s' ∧
            same_manager s s' ∧
            ∀ env' info context,
              returned (IsInGeneratedCode GetFaultPc kRunnable env' info context s') =
              returned (IsInGeneratedCode GetFaultPc kRunnable env' info context s)
  | None =>
      ∃ s', (AddGeneratedCodeRange p a n;; RemoveGeneratedCodeRange env a n) s
            = Abort s' ∧
            generated_code_ranges_ s' = generated_code_ranges_ s ∧
            ∀ x, x ≠ p → memory s' !! x = memory s !! x
  end.
Proof.
  intros Hne Hfresh.
  set (rp := mkGeneratedCodeRange (generated_code_ranges_ s) a n).
  set (s1 := after_calls [Ev_membarrier kPrivateExpedited]
               (set_generated_code_ranges_ p
                  (set_memory (<[p := rp]> (memory s)) s))).
  assert ((AddGeneratedCodeRange p a n;; RemoveGeneratedCodeRange env a n) s =
          RemoveGeneratedCodeRange env a n s1) as ->.
  { unfold bind. by rewrite AddGeneratedCodeRange_run. }
  assert (memory s1 !! p = Some rp) as Hp by apply lookup_insert_eq.
  pose proof (unlink_range_head s1 p rp a eq_refl Hne Hp eq_refl) as Hunlink.
  rewrite (RemoveGeneratedCodeRange_after_unlink env s1 _ p rp a n Hunlink)
    by done.
  simpl. rewrite Z.eqb_refl.
  destruct (Runtime_Current env) as [runtime|].
  - eexists. split; [reflexivity|].
    assert (delete p (<[p:=rp]> (memory s)) = memory s) as Hmem
      by by apply delete_insert_id.
    split.
    + destruct (IsStarted runtime && GetThreadList runtime);
        unfold same_manager; simpl; by rewrite Hmem.
    + intros env' info context. apply IsInGeneratedCode_same_registry.
      * destruct (IsStarted runtime && GetThreadList runtime); simpl; by rewrite Hmem.
      * by destruct (IsStarted runtime && GetThreadList runtime).
  - eexists. split; [reflexivity|]. split; [done|].
    intros x Hx. simpl. by apply lookup_insert_ne.
Qed.

End RoundTrip.

(** ** Lifecycle *)

Lemma STLDeleteContainerPointers_run l s :
  STLDeleteContainerPointers l s =
  Return tt (after_calls (Ev_delete_handler <$> l) s).
Proof.
  revert s. induction l as [|h l IH]; intros s; simpl.
  - unfold ret. by rewrite after_calls_nil.
  - unfold bind, emit, modify. rewrite IH. f_equal. apply (after_calls_app [_]).
Qed.

(** The draining loop of [Shutdown] deletes every node of the list. *)
Lemma delete_ranges_list s fuel p l :
  is_list (memory s) p l → (length l < fuel)%nat →
  delete_ranges fuel p s =
  Return tt (set_memory (foldl (λ m x, delete x m) (memory s) l) s).
Proof.
  revert s p fuel. induction l as [|a l IH]; intros s p fuel Hl Hf.
  - unfold is_list in Hl. simpl in Hl. subst p.
    destruct fuel as [|fuel]; [simpl in Hf; lia|]. simpl. unfold ret.
    by destruct s.
  - pose proof (is_list_NoDup _ _ _ Hl) as [Ha _]%NoDup_cons.
    destruct Hl as (-> & Hne & r & Hr & Hs).
    destruct fuel as [|fuel]; [simpl in Hf; lia|].
    simpl. rewrite (eqb_nullptr_false _ Hne). mstep. rewrite Hr. simpl.
    rewrite Hr. rewrite IH.
    + by destruct s.
    + simpl. eapply is_seg_frame; [|exact Hs]. intros x Hx.
      apply lookup_delete_ne. by intros ->.
    + simpl in Hf. lia.
Qed.

Section Lifecycle.
Context {ThreadState : Type}.
Implicit Types (env : Env ThreadState) (s : FaultManager) (l : list ptr).

Lemma Init_uninitialized env s :
  initialized_ s = false →
  Init env s =
  Return tt
    (set_initialized_ true
       (after_calls
          ([Ev_AddSpecialSignalHandlerFn; Ev_membarrier kRegisterPrivateExpedited] ++
           (if membarrier env kRegisterPrivateExpedited =? 0 then []
            else [Ev_LOG_WARNING])) s)).
Proof.
  intros Hinit. unfold Init. mstep. rewrite Hinit. simpl.
  destruct (membarrier env kRegisterPrivateExpedited =? 0); simpl;
    destruct s; simpl; unfold after_calls; simpl; by rewrite <- ?app_assoc.
Qed.

(** [Shutdown] on an initialized manager whose registry is well formed:
    the signal handler is removed, the handlers and the ranges are deleted,
    and the manager is left empty and uninitialized. *)
Lemma Shutdown_initialized s l :
  initialized_ s = true → registry s l →
  Shutdown s =
  Return tt
    (mkFaultManager (foldl (λ m x, delete x m) (memory s) l) nullptr [] [] false
       (trace s ++ [Ev_RemoveSpecialSignalHandlerFn] ++
        (Ev_delete_handler <$> generated_code_handlers_ s) ++
        (Ev_delete_handler <$> other_handlers_ s))).
Proof.
  intros Hinit Hl. unfold Shutdown, Release, bind at 1. unfold get at 1.
  rewrite Hinit. unfold bind at 1. unfold bind at 1. unfold get at 1.
  rewrite Hinit. unfold bind at 1. unfold emit, modify at 1 2.
  unfold bind at 1. unfold get at 1. unfold bind at 1.
  rewrite STLDeleteContainerPointers_run.
  unfold bind at 1. unfold modify at 1. unfold bind at 1. unfold get at 1.
  unfold bind at 1. rewrite STLDeleteContainerPointers_run.
  unfold bind at 1. unfold modify at 1. unfold bind, loop_bound, get.
  cbv beta iota. unfold atomic_load, atomic_store, get, modify. cbv beta iota.
  rewrite (delete_ranges_list _ _ _ l).
  - destruct s; simpl. unfold after_calls; simpl. by rewrite <- !app_assoc.
  - by destruct s.
  - pose proof (is_list_length _ _ _ Hl). destruct s; simpl in *. lia.
Qed.

(** C8: [Init] aborts on an initialized manager, and otherwise returns with
    the initialized flag set; [Release] and [Shutdown] on an uninitialized
    manager return without changing anything; [Shutdown] on an initialized
    manager clears the flag; so after [Shutdown], in either case, [Init]
    succeeds again. *)
Theorem C8_lifecycle_flag env s :
  (initialized_ s = true → Init env s = Abort s) ∧
  (initialized_ s = false →
   ∃ s', Init env s = Return tt s' ∧ initialized_ s' = true) ∧
  (initialized_ s = false →
   Release s = Return tt s ∧ Shutdown s = Return tt s) ∧
  (∀ l, registry s l →
        ∃ s' s'', Shutdown s = Return tt s' ∧ initialized_ s' = false ∧
                  Init env s' = Return tt s'' ∧ initialized_ s'' = true).
Proof.
  split_and!.
  - intros Hinit. unfold Init, bind, get, CHECK, abort. by rewrite Hinit.
  - intros Hinit. rewrite Init_uninitialized by done. by eexists.
  - intros Hinit. unfold Shutdown, Release, bind, get, ret. by rewrite Hinit.
  - intros l Hl. destruct (initialized_ s) eqn:Hinit.
    + rewrite (Shutdown_initialized s l) by done.
      eexists. eexists. split; [reflexivity|]. split; [done|].
      rewrite Init_uninitialized by done. done.
    + exists s. eexists. split.
      { unfold Shutdown, bind, get, ret. by rewrite Hinit. }
      split; [done|]. rewrite Init_uninitialized by done. done.
Qed.

End Lifecycle.

(** * The properties at concrete inputs *)

Ltac zcompare := vm_compute; first [reflexivity | discriminate | split; first [reflexivity | discriminate]].

Lemma example_runnable_in_managed_code debug :
  thread_in_managed_code true (example_env example_runnable debug).
Proof. eexists. split_and!; reflexivity. Defined.

Lemma example_registry_list : registry example_registry [0x7000].
Proof.
  unfold registry, is_list. simpl. split_and!; [reflexivity|discriminate|].
  eexists. split; reflexivity.
Defined.

Lemma example_registry_registered r :
  registered example_registry r → r = mkGeneratedCodeRange nullptr 0x1000 0x200.
Proof.
  intros (l & p & _ & _ & Hr). simpl in Hr.
  by apply lookup_singleton_Some in Hr as [_ <-].
Qed.

Lemma wrapping_registry_list : registry wrapping_registry [0x7000].
Proof.
  unfold registry, is_list. simpl. split_and!; [reflexivity|discriminate|].
  eexists. split; reflexivity.
Defined.

Lemma wrapping_registry_registered r :
  registered wrapping_registry r →
  r = mkGeneratedCodeRange nullptr (uintptr_modulus - 16) 32.
Proof.
  intros (l & p & _ & _ & Hr). simpl in Hr.
  by apply lookup_singleton_Some in Hr as [_ <-].
Qed.

Lemma example_three_ranges_list :
  registry example_three_ranges ([0x7020] ++ 0x7010 :: [0x7000]).
Proof.
  unfold registry, is_list. simpl.
  split_and!; [reflexivity|discriminate|]. eexists. split; [reflexivity|].
  split_and!; [reflexivity|discriminate|]. eexists. split; [reflexivity|].
  split_and!; [reflexivity|discriminate|]. eexists. split; reflexivity.
Defined.

(** The scenario of the specification: with [0x1000, 0x1200) registered, a
    fault at 0x1050 is in range and a fault at 0x1300 is not; after removal
    the fault at 0x1050 is not in range either. *)
Example scenario_register_fault_remove :
  let env := example_env example_runnable true in
  let in_range pc s := returned (IsInGeneratedCode example_GetFaultPc true env tt pc s) in
  ∃ s1 s2,
    (Init env;; AddGeneratedCodeRange 0x7000 0x1000 0x200) FaultManager_new
      = Return tt s1 ∧
    in_range 0x1050 s1 = Some true ∧
    in_range 0x1300 s1 = Some false ∧
    RemoveGeneratedCodeRange env 0x1000 0x200 s1 = Return tt s2 ∧
    in_range 0x1050 s2 = Some false.
Proof.
  eexists. eexists. split_and!.
  - vm_compute. reflexivity.
  - vm_compute. reflexivity.
  - vm_compute. reflexivity.
  - vm_compute. reflexivity.
  - vm_compute. reflexivity.
Qed.

(** The scenario with two unrelated ranges: removing the first does not
    affect lookups inside the second. *)
Example scenario_two_ranges :
  let env := example_env example_runnable true in
  let in_range pc s := returned (IsInGeneratedCode example_GetFaultPc true env tt pc s) in
  ∃ s1 s2,
    (AddGeneratedCodeRange 0x7000 0x1000 0x100;;
     AddGeneratedCodeRange 0x7010 0x2000 0x100) FaultManager_new = Return tt s1 ∧
    RemoveGeneratedCodeRange env 0x1000 0x100 s1 = Return tt s2 ∧
    in_range 0x2050 s1 = Some true ∧
    in_range 0x2050 s2 = Some true ∧
    in_range 0x1050 s2 = Some false.
Proof.
  eexists. eexists. split_and!.
  - vm_compute. reflexivity.
  - vm_compute. reflexivity.
  - vm_compute. reflexivity.
  - vm_compute. reflexivity.
  - vm_compute. reflexivity.
Qed.

(** C1, witness: the range [0x1000, 0x1200), which does not wrap, and a
    fault at 0x1050. *)
Lemma C1_IsInGeneratedCode_iff_in_range_witness :
  let env := example_env example_runnable false in
  let s := example_registry in
  (thread_in_managed_code true env ∧
   example_GetFaultPc tt 0x1050 ≠ 0 ∧
   is_uintptr (example_GetFaultPc tt 0x1050) ∧
   registry s [0x7000] ∧
   (∀ r, registered s r →
         0 <= start r ∧ 0 <= size r ∧ start r + size r <= uintptr_modulus)) ∧
  ∃ b, IsInGeneratedCode example_GetFaultPc true env tt 0x1050 s = Return b s ∧
       (b = true ↔
        ∃ r, registered s r ∧
             uintptr_sub (example_GetFaultPc tt 0x1050) (start r) < size r) ∧
       (b = true ↔
        ∃ r, registered s r ∧
             start r <= example_GetFaultPc tt 0x1050 < start r + size r) ∧
       (∀ r, registered s r → example_GetFaultPc tt 0x1050 < start r →
             range_contains (example_GetFaultPc tt 0x1050) (start r) (size r)
             = false).
Proof.
  cbv zeta.
  assert (∀ r, registered example_registry r →
               0 <= start r ∧ 0 <= size r ∧ start r + size r <= uintptr_modulus)
    as Hnowrap.
  { intros r ->%example_registry_registered. split_and!; zcompare. }
  split.
  - split_and!; [apply example_runnable_in_managed_code | discriminate
                 | zcompare | apply example_registry_list | exact Hnowrap].
  - destruct (C1_IsInGeneratedCode_iff_in_range example_GetFaultPc true
                (example_env example_runnable false) tt 0x1050 example_registry
                [0x7000])
      as (b & Hrun & Htest & Hinterval);
      [apply example_runnable_in_managed_code | discriminate
       | zcompare | apply example_registry_list |].
    destruct (Hinterval Hnowrap) as [Hin Hbelow].
    exists b. split_and!; [exact Hrun | exact Htest | exact Hin | exact Hbelow].
Defined.

(** C1, counterexample: the registered range starts at [2^64 - 16] and is
    32 bytes long.  The fault PC 8 is below its start and outside
    [[start, start+size)], yet [fault_pc - start] wraps to 24 < 32 and
    [IsInGeneratedCode] returns true. *)
Lemma C1_counterexample_wrapping_range :
  let env := example_env example_runnable false in
  thread_in_managed_code true env ∧
  example_GetFaultPc tt 8 ≠ 0 ∧
  registry wrapping_registry [0x7000] ∧
  IsInGeneratedCode example_GetFaultPc true env tt 8 wrapping_registry
    = Return true wrapping_registry ∧
  (∀ r, registered wrapping_registry r →
        example_GetFaultPc tt 8 < start r ∧
        ¬ (start r <= example_GetFaultPc tt 8 < start r + size r) ∧
        range_contains (example_GetFaultPc tt 8) (start r) (size r) = true).
Proof.
  simpl. split_and!.
  - apply example_runnable_in_managed_code.
  - discriminate.
  - apply wrapping_registry_list.
  - vm_compute. reflexivity.
  - intros r ->%wrapping_registry_registered. split_and!.
    + zcompare.
    + intros [Hle _]. revert Hle. vm_compute. intros H. by apply H.
    + vm_compute. reflexivity.
Qed.

Lemma example_handlers_list : registry example_handlers [0x7000].
Proof. exact example_registry_list. Defined.

Lemma example_handlers_in_range :
  ∃ r, registered example_handlers r ∧ 0 <= start r ∧
       start r <= example_GetFaultPc tt 0x1050 < start r + size r.
Proof.
  exists (mkGeneratedCodeRange nullptr 0x1000 0x200). split_and!; try zcompare.
  exists [0x7000], 0x7000.
  split_and!; [apply example_handlers_list | by left | reflexivity].
Defined.

(** [example_handlers] is [example_registry] after the registration of 1,
    2, 3 as generated-code handlers and of 5 as other handler. *)
Example example_handlers_registration :
  let env := example_env example_runnable true in
  (AddHandler env 1 true;; AddHandler env 2 true;; AddHandler env 5 false;;
   AddHandler env 3 true) example_registry = Return tt example_handlers.
Proof. reflexivity. Qed.

(** C2, witness: generated-code handlers 1, 2, 3, of which 2 claims, and a
    fault at 0x1050 inside [0x1000, 0x1200) on a runnable thread. *)
Lemma C2_first_claiming_handler_wins_witness :
  let env := example_env example_runnable true in
  let Action := example_Action (λ h, h =? 2) in
  let s := example_handlers in
  (thread_in_managed_code true env ∧
   example_GetFaultPc tt 0x1050 ≠ 0 ∧
   is_uintptr (example_GetFaultPc tt 0x1050) ∧
   registry s [0x7000] ∧
   (∃ r, registered s r ∧ 0 <= start r ∧
         start r <= example_GetFaultPc tt 0x1050 < start r + size r) ∧
   generated_code_handlers_ s = 1 :: 2 :: [3] ∧
   Action 1 11 tt 0x1050 = false ∧
   Action 2 11 tt 0x1050 = true) ∧
  HandleFault example_GetFaultPc Action true env 11 tt 0x1050 s =
  Return true (after_calls [Ev_Action 1; Ev_Action 2] s).
Proof.
  simpl. split.
  - split_and!; [apply example_runnable_in_managed_code | discriminate | zcompare
                 | apply example_handlers_list | apply example_handlers_in_range
                 | reflexivity | reflexivity | reflexivity].
  - apply (C2_first_claiming_handler_wins example_GetFaultPc
             (example_Action (λ h, h =? 2)) true
             (example_env example_runnable true) 11 tt 0x1050 example_handlers
             [0x7000] 1 2 [3]);
      [apply example_runnable_in_managed_code | discriminate | zcompare
       | apply example_handlers_list | apply example_handlers_in_range
       | reflexivity | reflexivity | reflexivity].
Defined.

(** C2, counterexample: the same handlers and the same fault at 0x1050,
    inside the registered [0x1000, 0x1200), but on a thread that is not
    Runnable.  Handler 1 does not claim and handler 2 would, yet neither is
    consulted: [IsInGeneratedCode] returns false, only the other handler 5
    is called, and [HandleFault] returns false. *)
Lemma C2_counterexample_thread_not_runnable :
  let env := example_env (Some (mkThread false true)) true in
  let Action := example_Action (λ h, h =? 2) in
  let s := example_handlers in
  (∃ r, registered s r ∧ 0 <= start r ∧
        start r <= example_GetFaultPc tt 0x1050 < start r + size r) ∧
  generated_code_handlers_ s = 1 :: 2 :: [3] ∧
  Action 1 11 tt 0x1050 = false ∧
  Action 2 11 tt 0x1050 = true ∧
  HandleFault example_GetFaultPc Action true env 11 tt 0x1050 s =
  Return false (after_calls [Ev_Action 5; Ev_art_sigsegv_fault] s).
Proof.
  simpl. split_and!; [apply example_handlers_in_range | reflexivity..].
Qed.

(** C3, witness: adding and removing [0x2000, 0x2100) next to the
    registered [0x1000, 0x1200). *)
Lemma C3_add_remove_round_trip_witness :
  let env := example_env example_runnable true in
  let s := example_registry in
  ((0x7010 : ptr) ≠ nullptr ∧ memory s !! 0x7010 = None) ∧
  ∃ s', (AddGeneratedCodeRange 0x7010 0x2000 0x100;;
         RemoveGeneratedCodeRange env 0x2000 0x100) s = Return tt s' ∧
        same_manager s s' ∧
        ∀ (env' : Env bool) (info : unit) (context : Z),
          returned (IsInGeneratedCode example_GetFaultPc true env' info context s') =
          returned (IsInGeneratedCode example_GetFaultPc true env' info context s).
Proof.
  simpl. split.
  - split; [discriminate | reflexivity].
  - apply (C3_add_remove_round_trip example_GetFaultPc true
             (example_env example_runnable true) example_registry
             0x7010 0x2000 0x100); [discriminate | reflexivity].
Defined.

(** C4, witness: removing the middle one of three ranges. *)
Lemma C4_unlink_rewrites_one_link_witness :
  let env := example_env example_runnable true in
  let s := example_three_ranges in
  (registry s [0x7020; 0x7010; 0x7000] ∧
   ∃ r, registered s r ∧ start r = 0x2000) ∧
  ∃ l1 p l2 rp s',
    [0x7020; 0x7010; 0x7000] = l1 ++ p :: l2 ∧
    Forall (λ x, node_starts (memory s) 0x2000 x = false) l1 ∧
    memory s !! p = Some rp ∧ start rp = 0x2000 ∧
    unlink_range 0x2000 s = Return p s' ∧
    RemoveGeneratedCodeRange env 0x2000 0x100 s =
      (if size rp =? 0x100 then
         match Runtime_Current env with
         | None => Abort s'
         | Some runtime =>
             Return tt (set_memory (delete p (memory s'))
                          (if IsStarted runtime && GetThreadList runtime
                           then after_calls [Ev_RunEmptyCheckpoint] s' else s'))
         end
       else Abort s') ∧
    memory s' !! p = Some rp ∧
    (∀ x, last l1 ≠ Some x → memory s' !! x = memory s !! x) ∧
    (∀ q rq, last l1 = Some q → memory s !! q = Some rq →
             memory s' !! q =
             Some (mkGeneratedCodeRange (next rp) (start rq) (size rq))) ∧
    generated_code_ranges_ s' =
      match last l1 with
      | Some _ => generated_code_ranges_ s
      | None => next rp
      end ∧
    generated_code_handlers_ s' = generated_code_handlers_ s ∧
    other_handlers_ s' = other_handlers_ s ∧
    initialized_ s' = initialized_ s ∧
    trace s' = trace s ∧
    registry s' (l1 ++ l2) ∧
    is_list (memory s') p (p :: l2) ∧
    (∀ pc, walk_ranges (S (base.size (memory s'))) pc p s' =
           Return (existsb (node_contains (memory s') pc) (p :: l2)) s').
Proof.
  cbv zeta.
  assert (∃ r, registered example_three_ranges r ∧ start r = 0x2000) as Hsome.
  { exists (mkGeneratedCodeRange 0x7000 0x2000 0x100). split; [|reflexivity].
    exists [0x7020; 0x7010; 0x7000], 0x7010.
    split_and!; [apply example_three_ranges_list | by right; left
                 | reflexivity]. }
  split.
  - split; [apply example_three_ranges_list | exact Hsome].
  - apply (C4_unlink_rewrites_one_link (example_env example_runnable true)
             example_three_ranges [0x7020; 0x7010; 0x7000] 0x2000 0x100);
      [apply example_three_ranges_list | exact Hsome].
Defined.

(** C5, witness: a fault at 0x1050, inside the registered range, on a
    thread without a current-thread identity. *)
Lemma C5_guard_failure_not_in_generated_code_witness :
  let env := example_env None false in
  (Thread_Current env = None ∨
   (∃ thread, Thread_Current env = Some thread ∧
              (GetState thread ≠ true ∨ IsSharedHeld thread = false)) ∨
   example_GetFaultPc tt 0x1050 = 0) ∧
  IsInGeneratedCode example_GetFaultPc true env tt 0x1050 example_registry =
  Return false example_registry.
Proof.
  simpl. split.
  - left. reflexivity.
  - apply (C5_guard_failure_not_in_generated_code example_GetFaultPc true
             (example_env None false) tt 0x1050 example_registry).
    left. reflexivity.
Defined.



(** C7, witness: handler 9 is registered nowhere, no range starts at
    0x5000, and the range that starts at 0x1000 has size 0x200, not 0x201. *)
Lemma C7_removals_of_unregistered_are_fatal_witness :
  let env := example_env example_runnable true in
  let s := example_registry in
  ((9 ∉ generated_code_handlers_ s) ∧ (9 ∉ other_handlers_ s) ∧
   registry s [0x7000] ∧
   (∀ r, registered s r → start r ≠ 0x5000) ∧
   (∃ r, registered s r ∧ start r = 0x1000) ∧
   (∀ r, registered s r → start r = 0x1000 → size r ≠ 0x201)) ∧
  RemoveHandler 9 s = Abort s ∧
  RemoveGeneratedCodeRange env 0x5000 0x200 s = Abort s ∧
  ∃ s', RemoveGeneratedCodeRange env 0x1000 0x201 s = Abort s'.
Proof.
  simpl.
  assert (∀ r, registered example_registry r → start r ≠ 0x5000) as Hnone.
  { intros r ->%example_registry_registered. discriminate. }
  assert (∃ r, registered example_registry r ∧ start r = 0x1000) as Hsome.
  { exists (mkGeneratedCodeRange nullptr 0x1000 0x200).
    split; [|reflexivity]. exists [0x7000], 0x7000.
    split_and!; [apply example_registry_list | by left | reflexivity]. }
  assert (∀ r, registered example_registry r → start r = 0x1000 → size r ≠ 0x201)
    as Hsize.
  { intros r ->%example_registry_registered _. discriminate. }
  destruct (C7_removals_of_unregistered_are_fatal
              (example_env example_runnable true) example_registry)
    as (Hhandler & Hstart & Hmismatch).
  split.
  - split_and!; [apply not_elem_of_nil | apply not_elem_of_nil
                 | apply example_registry_list | exact Hnone | exact Hsome
                 | exact Hsize].
  - split_and!.
    + apply Hhandler; apply not_elem_of_nil.
    + apply (Hstart [0x7000]); [apply example_registry_list | exact Hnone].
    + apply (Hmismatch [0x7000]);
        [apply example_registry_list | exact Hsome | exact Hsize].
Defined.

(** C8, witness: the initialized [example_registry] and a fresh manager. *)
Lemma C8_lifecycle_flag_witness :
  let env := example_env example_runnable true in
  (initialized_ example_registry = true ∧ initialized_ FaultManager_new = false ∧
   registry example_registry [0x7000]) ∧
  Init env example_registry = Abort example_registry ∧
  (∃ s', Init env FaultManager_new = Return tt s' ∧ initialized_ s' = true) ∧
  (Release FaultManager_new = Return tt FaultManager_new ∧
   Shutdown FaultManager_new = Return tt FaultManager_new) ∧
  (∃ s' s'', Shutdown example_registry = Return tt s' ∧ initialized_ s' = false ∧
             Init env s' = Return tt s'' ∧ initialized_ s'' = true).
Proof.
  simpl.
  destruct (C8_lifecycle_flag (example_env example_runnable true) example_registry)
    as (Hdouble & _ & _ & Hagain).
  destruct (C8_lifecycle_flag (example_env example_runnable true) FaultManager_new)
    as (_ & Hinit & Hnoop & _).
  split.
  - split_and!; [reflexivity | reflexivity | apply example_registry_list].
  - split_and!.
    + apply Hdouble. reflexivity.
    + apply Hinit. reflexivity.
    + apply Hnoop. reflexivity.
    + apply Hnoop. reflexivity.
    + apply (Hagain [0x7000]). apply example_registry_list.
Defined.

(** C9, witness: a fault at 0x1050 that none of the handlers 1, 2, 3, 5
    claims, on a runnable thread of a started runtime, in a debug build. *)
Lemma C9_unclaimed_fault_reaches_marker_witness :
  let env := example_env example_runnable true in
  let Action := example_Action (λ _, false) in
  let s := example_handlers in
  (registry s [0x7000] ∧
   (∀ h, h ∈ generated_code_handlers_ s → Action h 11 tt 0x1050 = false) ∧
   (∀ h, h ∈ other_handlers_ s → Action h 11 tt 0x1050 = false) ∧
   other_dispatch_aborts env s = false) ∧
  ∃ in_generated calls,
    IsInGeneratedCode example_GetFaultPc true env tt 0x1050 s
      = Return in_generated s ∧
    calls =
      (Ev_Action <$> (if in_generated then generated_code_handlers_ s else [])) ++
      (Ev_Action <$> other_handlers_ s) ++ [Ev_art_sigsegv_fault] ∧
    HandleFault example_GetFaultPc Action true env 11 tt 0x1050 s
      = Return false (after_calls calls s) ∧
    length (filter (λ e, e = Ev_art_sigsegv_fault) calls) = 1%nat.
Proof.
  simpl. split.
  - split_and!; [apply example_handlers_list | reflexivity | reflexivity
                 | reflexivity].
  - apply (C9_unclaimed_fault_reaches_marker example_GetFaultPc
             (example_Action (λ _, false)) true
             (example_env example_runnable true) 11 tt 0x1050 example_handlers
             [0x7000]);
      [apply example_handlers_list | reflexivity | reflexivity | reflexivity].
Defined.

(** C9, counterexample: a debug build, a fault on a thread without a
    current-thread identity, and one other handler, which does not claim.
    No handler claims the fault, yet [HandleFault] neither calls
    [art_sigsegv_fault] nor returns: it aborts on [DCHECK(self != nullptr)]
    in [HandleFaultByOtherHandlers]. *)
Lemma C9_counterexample_debug_assertion :
  let env := example_env None true in
  let Action := example_Action (λ _, false) in
  let s := example_other_only in
  (∀ h, Action h 11 tt 0x1300 = false) ∧
  kIsDebugBuild env = true ∧ Thread_Current env = None ∧
  other_handlers_ s = [5] ∧
  HandleFault example_GetFaultPc Action true env 11 tt 0x1300 s = Abort s.
Proof. simpl. split_and!; try reflexivity. Qed.

(** C10, witness: the lookup at 0x1050 in [example_registry]. *)
Lemma C10_IsInGeneratedCode_read_only_witness :
  let env := example_env example_runnable true in
  let s := example_registry in
  (IsInGeneratedCode example_GetFaultPc true env tt 0x1050 s = Return true s ∧
   registry s [0x7000]) ∧
  (s = s ∧
   IsInGeneratedCode example_GetFaultPc true env tt 0x1050 s = Return true s) ∧
  (∃ b, IsInGeneratedCode example_GetFaultPc true env tt 0x1050 s = Return b s).
Proof.
  simpl.
  destruct (C10_IsInGeneratedCode_read_only example_GetFaultPc true
              (example_env example_runnable true) tt 0x1050 example_registry)
    as (Hsame & _ & Hreturns).
  split.
  - split; [vm_compute; reflexivity | apply example_registry_list].
  - split.
    + apply Hsame. vm_compute. reflexivity.
    + apply (Hreturns [0x7000]). apply example_registry_list.
Defined.

(** * Further properties of the code *)

(** ** The membership test *)

Lemma uintptr_sub_add_mod a i :
  0 <= i < uintptr_modulus →
  uintptr_sub ((a + i) mod uintptr_modulus) a = i.
Proof.
  intros Hi. unfold uintptr_sub. rewrite Zminus_mod_idemp_l.
  replace (a + i - a) with i by lia. by apply Z.mod_small.
Qed.

(** X1: for addresses of the machine, the test
    [fault_pc - start < size] of [IsInGeneratedCode] is membership of the
    fault PC in the [size] addresses that follow [start], counted modulo
    [2^64]: a range that reaches the top of the address space continues at
    address 0. *)
Theorem X1_range_test_is_circular_membership pc a n :
  is_uintptr pc → 0 <= n <= uintptr_modulus →
  range_contains pc a n = true ↔ in_bytes_from a n pc.
Proof.
  unfold is_uintptr, in_bytes_from. intros Hpc Hn.
  pose proof uintptr_modulus_pos as Hpos. rewrite range_contains_spec. split.
  - intros Hlt. exists (uintptr_sub pc a). unfold uintptr_sub in *.
    pose proof (Z.mod_pos_bound (pc - a) uintptr_modulus Hpos).
    split; [lia|]. rewrite Zplus_mod_idemp_r.
    replace (a + (pc - a)) with pc by lia. symmetry. by apply Z.mod_small.
  - intros (i & Hi & ->). rewrite uintptr_sub_add_mod; lia.
Qed.

(** X1, witness: the 32 bytes from [2^64 - 16] contain address 8. *)
Lemma X1_range_test_is_circular_membership_witness :
  (is_uintptr 8 ∧ 0 <= 32 <= uintptr_modulus) ∧
  (range_contains 8 (uintptr_modulus - 16) 32 = true ↔
   in_bytes_from (uintptr_modulus - 16) 32 8).
Proof.
  split.
  - split; zcompare.
  - apply X1_range_test_is_circular_membership; zcompare.
Defined.

(** ** The registry as an association list *)

Section RangesView.
Implicit Types (h : gmap Z GeneratedCodeRange) (l : list ptr) (s : FaultManager).

Lemma ranges_of_nil h : ranges_of h [] = [].
Proof. reflexivity. Qed.

Lemma ranges_of_cons h p r l :
  h !! p = Some r → ranges_of h (p :: l) = (start r, size r) :: ranges_of h l.
Proof. intros Hr. unfold ranges_of. simpl. by rewrite Hr. Qed.

Lemma ranges_of_app h l1 l2 :
  ranges_of h (l1 ++ l2) = ranges_of h l1 ++ ranges_of h l2.
Proof. unfold ranges_of. apply omap_app. Qed.

(** The pairs only depend on the [start] and [size] fields of the nodes. *)
Lemma ranges_of_frame h h' l :
  (∀ x, x ∈ l →
        (λ r, (start r, size r)) <$> h' !! x = (λ r, (start r, size r)) <$> h !! x) →
  ranges_of h' l = ranges_of h l.
Proof.
  induction l as [|a l IH]; intros Hf; [done|].
  assert (ranges_of h' l = ranges_of h l) as IH'.
  { apply IH. intros x Hx. apply Hf. by right. }
  pose proof (Hf a ltac:(by left)) as Ha.
  unfold ranges_of in *. simpl. rewrite Ha.
  destruct (_ <$> h !! a); [f_equal|]; exact IH'.
Qed.

Lemma existsb_ranges_of h pc l :
  existsb (node_contains h pc) l = existsb (range_in pc) (ranges_of h l).
Proof.
  induction l as [|a l IH]; [done|]. unfold ranges_of in *. simpl.
  unfold node_contains at 1. destruct (h !! a) as [r|]; simpl;
    [f_equal|]; exact IH.
Qed.

Lemma node_starts_ranges_of h a l :
  (∀ x, x ∈ l → is_Some (h !! x)) →
  Forall (λ x, node_starts h a x = false) l →
  erase_start a (ranges_of h l) = None.
Proof.
  induction l as [|x l IH]; intros Hlive Hall; [done|].
  apply Forall_cons in Hall as [Hx Hall].
  destruct (Hlive x) as [r Hr]; [by left|].
  rewrite (ranges_of_cons _ _ r) by done. simpl.
  unfold node_starts in Hx. rewrite Hr in Hx. rewrite Hx.
  rewrite IH; [done| |done]. intros y Hy. apply Hlive. by right.
Qed.

Lemma erase_start_app a n rs1 rs2 :
  erase_start a rs1 = None →
  erase_start a (rs1 ++ (a, n) :: rs2) = Some (n, rs1 ++ rs2).
Proof.
  induction rs1 as [|[a' n'] rs1 IH]; simpl.
  - intros _. by rewrite Z.eqb_refl.
  - destruct (a' =? a); [done|].
    destruct (erase_start a rs1) as [[? ?]|]; [done|]. intros _.
    by rewrite IH.
Qed.

(** The first pair that starts at [a], when there is one. *)
Lemma erase_start_Some a rs n rest :
  erase_start a rs = Some (n, rest) →
  ∃ rs1 rs2, rs = rs1 ++ (a, n) :: rs2 ∧ rest = rs1 ++ rs2 ∧
             erase_start a rs1 = None.
Proof.
  revert n rest. induction rs as [|[a' n'] rs IH]; intros n rest; simpl; [done|].
  destruct (Z.eqb_spec a' a) as [->|Hne].
  - intros [= -> ->]. by exists [], rest.
  - destruct (erase_start a rs) as [[n0 rest0]|] eqn:He; [|done].
    intros [= -> <-]. destruct (IH n rest0 eq_refl) as (rs1 & rs2 & -> & -> & Hn).
    exists ((a', n') :: rs1), rs2. split_and!; [done..|].
    simpl. apply Z.eqb_neq in Hne. by rewrite Hne, Hn.
Qed.

End RangesView.

Section Refinement.
Context {siginfo_t ucontext_t : Type} (GetFaultPc : siginfo_t → ucontext_t → Z).
Context {ThreadState : Type} (kRunnable : ThreadState) `{EqDecision ThreadState}.
Implicit Types (env : Env ThreadState) (info : siginfo_t) (context : ucontext_t).
Implicit Types (s : FaultManager) (l : list ptr).

(** [IsInGeneratedCode] on a well-formed registry, for every thread state:
    the guards, then the walk. *)
Lemma IsInGeneratedCode_exact env info context s l :
  registry s l →
  IsInGeneratedCode GetFaultPc kRunnable env info context s =
  Return (passes_guards GetFaultPc kRunnable env info context &&
          existsb (range_in (GetFaultPc info context)) (ranges_of (memory s) l)) s.
Proof.
  intros Hl. unfold IsInGeneratedCode, passes_guards.
  destruct (Thread_Current env) as [thread|]; [|done].
  destruct (bool_decide (GetState thread = kRunnable)); [|done].
  destruct (IsSharedHeld thread); [|done]. simpl.
  destruct (GetFaultPc info context =? 0); [done|]. simpl.
  unfold bind, loop_bound, atomic_load, get. cbv beta iota.
  pose proof (is_list_length _ _ _ Hl) as Hlen.
  rewrite (walk_ranges_list s _ _ _ l Hl) by lia.
  by rewrite existsb_ranges_of.
Qed.

(** [AddGeneratedCodeRange] conses the pair. *)
Lemma AddGeneratedCodeRange_ranges p a n s l s' :
  p ≠ nullptr → memory s !! p = None → registry s l →
  AddGeneratedCodeRange p a n s = Return tt s' →
  registry s' (p :: l) ∧
  ranges_of (memory s') (p :: l) = (a, n) :: ranges_of (memory s) l.
Proof.
  intros Hne Hfresh Hl Hrun.
  destruct (AddGeneratedCodeRange_registry p a n s l s' Hne Hfresh Hl Hrun)
    as [Hreg Hp].
  split; [done|]. rewrite (ranges_of_cons _ _ _ _ Hp). simpl. f_equal.
  apply ranges_of_frame. intros x Hx.
  rewrite AddGeneratedCodeRange_run in Hrun. injection Hrun as <-. simpl.
  rewrite lookup_insert_ne; [done|]. intros ->.
  destruct (is_seg_lookup _ _ _ _ _ Hl Hx) as [_ [r Hr]]. congruence.
Qed.

End Refinement.

Section RemoveView.
Context {ThreadState : Type}.
Implicit Types (env : Env ThreadState) (s : FaultManager) (l : list ptr).

Lemma RemoveGeneratedCodeRange_not_found env s l a n :
  registry s l →
  Forall (λ x, node_starts (memory s) a x = false) l →
  RemoveGeneratedCodeRange env a n s = Abort s.
Proof.
  intros Hl Hall. unfold RemoveGeneratedCodeRange, bind at 1.
  by rewrite (unlink_range_not_found s l a).
Qed.

(** The first pair that starts at [a] belongs to the first node that
    starts at [a]. *)
Lemma erase_start_ranges_of (h : gmap Z GeneratedCodeRange) a l :
  (∀ x, x ∈ l → is_Some (h !! x)) →
  match erase_start a (ranges_of h l) with
  | None => Forall (λ x, node_starts h a x = false) l
  | Some (n', rest) =>
      ∃ l1 p l2 rp,
        l = l1 ++ p :: l2 ∧
        Forall (λ x, node_starts h a x = false) l1 ∧
        h !! p = Some rp ∧ start rp = a ∧ size rp = n' ∧
        rest = ranges_of h (l1 ++ l2)
  end.
Proof.
  induction l as [|x l IH]; intros Hlive; [by constructor|].
  destruct (Hlive x) as [r Hr]; [by left|].
  assert (∀ y, y ∈ l → is_Some (h !! y)) as Hlive'.
  { intros y Hy. apply Hlive. by right. }
  specialize (IH Hlive'). rewrite (ranges_of_cons _ _ r) by done. simpl.
  destruct (Z.eqb_spec (start r) a) as [Heq|Hne].
  - exists [], x, l, r. split_and!; done.
  - assert (node_starts h a x = false) as Hx.
    { unfold node_starts. rewrite Hr. by apply Z.eqb_neq. }
    destruct (erase_start a (ranges_of h l)) as [[n0 rest0]|].
    + destruct IH as (l1 & p & l2 & rp & -> & Hall & Hp & Ha & Hn & ->).
      exists (x :: l1), p, l2, rp. split_and!; try done.
      * by apply Forall_cons.
      * rewrite <- app_comm_cons. by rewrite (ranges_of_cons _ _ r).
    + by apply Forall_cons.
Qed.

(** Unlinking and deleting a node keeps the pairs of the other nodes. *)
Lemma ranges_of_removed s l1 p l2 rp :
  registry s (l1 ++ p :: l2) → memory s !! p = Some rp →
  ranges_of (delete p (memory (unlinked l1 (next rp) s))) (l1 ++ l2) =
  ranges_of (memory s) (l1 ++ l2).
Proof.
  intros Hl Hp.
  destruct (unlinked_registry s l1 p l2 rp Hl Hp)
    as (_ & _ & _ & Hframe & Hpred & _).
  pose proof (is_list_NoDup _ _ _ Hl) as Hnd.
  apply NoDup_app in Hnd as (_ & Hdisj & [Hp2 _]%NoDup_cons).
  apply ranges_of_frame. intros x Hx.
  assert (x ≠ p) as Hxp.
  { intros ->. apply elem_of_app in Hx as [H1|H2]; [|done].
    apply (Hdisj p H1). by left. }
  rewrite lookup_delete_ne by done.
  destruct (decide (last l1 = Some x)) as [Hlast|Hlast].
  - assert (x ∈ l1 ++ p :: l2) as Hin.
    { apply last_Some in Hlast as [l' ->]. rewrite <- app_assoc.
      apply elem_of_app. right. by left. }
    destruct (is_seg_lookup _ _ _ _ _ Hl Hin) as [_ [rq Hq]].
    by rewrite (Hpred x rq Hlast Hq), Hq.
  - by rewrite Hframe.
Qed.

(** [RemoveGeneratedCodeRange] on the list of pairs. *)
Lemma RemoveGeneratedCodeRange_view env runtime s l a n :
  registry s l → Runtime_Current env = Some runtime →
  match erase_start a (ranges_of (memory s) l) with
  | None => RemoveGeneratedCodeRange env a n s = Abort s
  | Some (n', rest) =>
      if n' =? n then
        ∃ s' l' p,
          RemoveGeneratedCodeRange env a n s = Return tt s' ∧
          registry s' l' ∧ ranges_of (memory s') l' = rest ∧
          p ∈ l ∧ (p ∉ l') ∧ memory s' !! p = None ∧
          generated_code_handlers_ s' = generated_code_handlers_ s ∧
          other_handlers_ s' = other_handlers_ s ∧
          initialized_ s' = initialized_ s ∧
          (∀ x : ptr, memory s !! x = None → memory s' !! x = None)
      else ∃ s', RemoveGeneratedCodeRange env a n s = Abort s'
  end.
Proof.
  intros Hl Hrt.
  pose proof (erase_start_ranges_of (memory s) a l) as Hfirst.
  destruct (erase_start a (ranges_of (memory s) l)) as [[n' rest]|].
  - destruct Hfirst as (l1 & p & l2 & rp & -> & Hall & Hp & Ha & Hn & ->).
    { intros x Hx. by eapply is_seg_lookup. }
    pose proof (RemoveGeneratedCodeRange_found env s l1 p l2 rp a n Hl Hall Hp Ha)
      as Hrun. simpl in Hrun. rewrite Hn, Hrt in Hrun.
    destruct (Z.eqb_spec n' n) as [->|Hne]; [|by eexists].
    edestruct (RemoveGeneratedCodeRange_registry env s l1 p l2 rp a)
      as [Hreg Hfreed]; [exact Hl | exact Hall | exact Hp | exact Ha
                         | rewrite Hn; exact Hrun |].
    pose proof (is_list_NoDup _ _ _ Hl) as Hnd.
    apply NoDup_app in Hnd as (_ & Hdisj & [Hp2 _]%NoDup_cons).
    destruct (unlinked_registry s l1 p l2 rp Hl Hp)
      as (_ & _ & _ & Hframe & _ & _ & Hg & Ho & Hi & _).
    eexists. exists (l1 ++ l2), p. split; [exact Hrun|].
    split_and!; try done.
    + rewrite <- (ranges_of_removed s l1 p l2 rp Hl Hp).
      by destruct (IsStarted runtime && GetThreadList runtime).
    + apply elem_of_app. right. by left.
    + intros [H1|H2]%elem_of_app; [|done]. apply (Hdisj p H1). by left.
    + by destruct (IsStarted runtime && GetThreadList runtime).
    + by destruct (IsStarted runtime && GetThreadList runtime).
    + by destruct (IsStarted runtime && GetThreadList runtime).
    + intros x Hx.
      assert (memory (unlinked l1 (next rp) s) !! x = None) as Hx'.
      { rewrite Hframe; [done|]. intros Hlast.
        assert (x ∈ l1 ++ p :: l2) as Hin.
        { apply last_Some in Hlast as [l' ->]. rewrite <- app_assoc.
          apply elem_of_app. right. by left. }
        destruct (is_seg_lookup _ _ _ _ _ Hl Hin) as [_ [rq Hq]].
        rewrite Hx in Hq. done. }
      assert (x ≠ p) as Hxp. { intros ->. rewrite Hp in Hx. done. }
      destruct (IsStarted runtime && GetThreadList runtime); simpl;
        by rewrite lookup_delete_ne.
  - apply (RemoveGeneratedCodeRange_not_found env s l); [done|].
    apply Hfirst. intros x Hx. by eapply is_seg_lookup.
Qed.

(** X4: [RemoveGeneratedCodeRange(a, n)] on the registry seen as the list
    of its [(start, size)] pairs, head first, in a process that has a
    runtime.  It aborts when no pair starts at [a], and when the first pair
    that starts at [a] has a size other than [n]; otherwise it returns, the
    registry has lost exactly that first pair (the order of the others is
    kept), the node that held it has been freed, and the handler vectors and
    the initialized flag are as before. *)
Theorem X4_remove_erases_first_pair env runtime s l a n :
  registry s l → Runtime_Current env = Some runtime →
  match erase_start a (ranges_of (memory s) l) with
  | None => RemoveGeneratedCodeRange env a n s = Abort s
  | Some (n', rest) =>
      if n' =? n then
        ∃ s' l' p,
          RemoveGeneratedCodeRange env a n s = Return tt s' ∧
          registry s' l' ∧ ranges_of (memory s') l' = rest ∧
          p ∈ l ∧ (p ∉ l') ∧ memory s' !! p = None ∧
          generated_code_handlers_ s' = generated_code_handlers_ s ∧
          other_handlers_ s' = other_handlers_ s ∧
          initialized_ s' = initialized_ s
      else ∃ s', RemoveGeneratedCodeRange env a n s = Abort s'
  end.
Proof.
  intros Hl Hrt.
  pose proof (RemoveGeneratedCodeRange_view env runtime s l a n Hl Hrt) as Hview.
  destruct (erase_start a (ranges_of (memory s) l)) as [[n' rest]|]; [|done].
  destruct (n' =? n); [|done].
  destruct Hview as (s' & l' & p & Hrun & Hreg & Hrs & Hin & Hout & Hfreed
                     & Hg & Ho & Hi & _).
  exists s', l', p. done.
Qed.

End RemoveView.

Section RegistryProperties.
Context {siginfo_t ucontext_t : Type} (GetFaultPc : siginfo_t → ucontext_t → Z).
Context {ThreadState : Type} (kRunnable : ThreadState) `{EqDecision ThreadState}.
Implicit Types (env : Env ThreadState) (info : siginfo_t) (context : ucontext_t).
Implicit Types (s : FaultManager) (l : list ptr).

Lemma AddGeneratedCodeRange_view p a n s l :
  p ≠ nullptr → memory s !! p = None → registry s l →
  ∃ s', AddGeneratedCodeRange p a n s = Return tt s' ∧
        registry s' (p :: l) ∧
        ranges_of (memory s') (p :: l) = (a, n) :: ranges_of (memory s) l ∧
        trace s' = trace s ++ [Ev_membarrier kPrivateExpedited] ∧
        generated_code_handlers_ s' = generated_code_handlers_ s ∧
        other_handlers_ s' = other_handlers_ s ∧
        initialized_ s' = initialized_ s ∧
        (∀ x : ptr, x ≠ p → memory s' !! x = memory s !! x).
Proof.
  intros Hne Hfresh Hl. eexists. split; [apply AddGeneratedCodeRange_run|].
  destruct (AddGeneratedCodeRange_ranges p a n s l _ Hne Hfresh Hl
              (AddGeneratedCodeRange_run p a n s)) as [Hreg Hrs].
  split_and!; try done. intros x Hx. simpl. by rewrite lookup_insert_ne.
Qed.

(** X2: on a well-formed registry, for every thread state and every fault,
    [IsInGeneratedCode] returns, leaves the state as it is, and answers
    whether the guards pass and the fault PC passes the test of some
    registered [(start, size)] pair. *)
Theorem X2_lookup_over_pairs env info context s l :
  registry s l →
  IsInGeneratedCode GetFaultPc kRunnable env info context s =
  Return (passes_guards GetFaultPc kRunnable env info context &&
          existsb (range_in (GetFaultPc info context)) (ranges_of (memory s) l)) s.
Proof. apply (IsInGeneratedCode_exact GetFaultPc kRunnable). Qed.

(** X3: [AddGeneratedCodeRange(a, n)], the new node being allocated at a
    fresh non-null address, keeps the registry well formed and puts the pair
    [(a, n)] in front of the registered pairs, which are otherwise
    unchanged; its only outgoing call is [membarrier(kPrivateExpedited)],
    and it touches neither the handler vectors nor the initialized flag nor
    any other node. *)
Theorem X3_add_conses_pair p a n s l :
  p ≠ nullptr → memory s !! p = None → registry s l →
  ∃ s', AddGeneratedCodeRange p a n s = Return tt s' ∧
        registry s' (p :: l) ∧
        ranges_of (memory s') (p :: l) = (a, n) :: ranges_of (memory s) l ∧
        trace s' = trace s ++ [Ev_membarrier kPrivateExpedited] ∧
        generated_code_handlers_ s' = generated_code_handlers_ s ∧
        other_handlers_ s' = other_handlers_ s ∧
        initialized_ s' = initialized_ s ∧
        (∀ x : ptr, x ≠ p → memory s' !! x = memory s !! x).
Proof. apply AddGeneratedCodeRange_view. Qed.

(** X5: registering a range never unregisters anything.  After
    [AddGeneratedCodeRange(a, n)] a fault is classified as in generated code
    exactly when it was before, or when the guards pass and its PC passes
    the test of the new range. *)
Theorem X5_lookup_after_add env info context p a n s l b :
  p ≠ nullptr → memory s !! p = None → registry s l →
  IsInGeneratedCode GetFaultPc kRunnable env info context s = Return b s →
  ∃ s', AddGeneratedCodeRange p a n s = Return tt s' ∧
        IsInGeneratedCode GetFaultPc kRunnable env info context s' =
        Return (passes_guards GetFaultPc kRunnable env info context &&
                range_contains (GetFaultPc info context) a n || b) s'.
Proof.
  intros Hne Hfresh Hl Hb.
  destruct (AddGeneratedCodeRange_view p a n s l Hne Hfresh Hl)
    as (s' & Hrun & Hreg & Hrs & _).
  exists s'. split; [done|].
  rewrite (IsInGeneratedCode_exact GetFaultPc kRunnable env info context s l Hl) in Hb.
  injection Hb as <-.
  rewrite (IsInGeneratedCode_exact GetFaultPc kRunnable env info context s' (p :: l) Hreg), Hrs.
  simpl. f_equal. unfold range_in at 1. simpl.
  by destruct (passes_guards _ _ _ _ _), (range_contains _ a n).
Qed.

(** X6: an empty range contains nothing: after
    [AddGeneratedCodeRange(a, 0)] every fault is classified as before. *)
Theorem X6_empty_range_matches_nothing p a s l :
  p ≠ nullptr → memory s !! p = None → registry s l →
  ∃ s', AddGeneratedCodeRange p a 0 s = Return tt s' ∧
        ∀ env info context,
          returned (IsInGeneratedCode GetFaultPc kRunnable env info context s') =
          returned (IsInGeneratedCode GetFaultPc kRunnable env info context s).
Proof.
  intros Hne Hfresh Hl.
  destruct (AddGeneratedCodeRange_view p a 0 s l Hne Hfresh Hl)
    as (s' & Hrun & Hreg & Hrs & _).
  exists s'. split; [done|]. intros env info context.
  rewrite (IsInGeneratedCode_exact GetFaultPc kRunnable env info context s l Hl).
  rewrite (IsInGeneratedCode_exact GetFaultPc kRunnable env info context s' (p :: l) Hreg), Hrs.
  simpl. do 2 f_equal. unfold range_in at 1. simpl.
  assert (range_contains (GetFaultPc info context) a 0 = false) as ->; [|done].
  apply not_true_is_false. rewrite range_contains_spec. unfold uintptr_sub.
  pose proof (Z.mod_pos_bound (GetFaultPc info context - a) uintptr_modulus
                uintptr_modulus_pos). lia.
Qed.

(** X7: registrations commute as far as lookups can tell: registering two
    ranges in either order gives the same answer to every fault. *)
Theorem X7_adds_commute p1 p2 a1 n1 a2 n2 s l :
  p1 ≠ nullptr → p2 ≠ nullptr → p1 ≠ p2 →
  memory s !! p1 = None → memory s !! p2 = None → registry s l →
  ∃ s12 s21,
    (AddGeneratedCodeRange p1 a1 n1;; AddGeneratedCodeRange p2 a2 n2) s
      = Return tt s12 ∧
    (AddGeneratedCodeRange p2 a2 n2;; AddGeneratedCodeRange p1 a1 n1) s
      = Return tt s21 ∧
    ∀ env info context,
      returned (IsInGeneratedCode GetFaultPc kRunnable env info context s12) =
      returned (IsInGeneratedCode GetFaultPc kRunnable env info context s21).
Proof.
  intros Hne1 Hne2 Hne12 Hf1 Hf2 Hl.
  destruct (AddGeneratedCodeRange_view p1 a1 n1 s l Hne1 Hf1 Hl)
    as (s1 & Hrun1 & Hreg1 & Hrs1 & _ & _ & _ & _ & Hmem1).
  destruct (AddGeneratedCodeRange_view p2 a2 n2 s l Hne2 Hf2 Hl)
    as (s2 & Hrun2 & Hreg2 & Hrs2 & _ & _ & _ & _ & Hmem2).
  destruct (AddGeneratedCodeRange_view p2 a2 n2 s1 (p1 :: l) Hne2)
    as (s12 & Hrun12 & Hreg12 & Hrs12 & _); [by rewrite Hmem1|done|].
  destruct (AddGeneratedCodeRange_view p1 a1 n1 s2 (p2 :: l) Hne1)
    as (s21 & Hrun21 & Hreg21 & Hrs21 & _); [by rewrite Hmem2|done|].
  exists s12, s21. split_and!.
  - unfold bind. by rewrite Hrun1.
  - unfold bind. by rewrite Hrun2.
  - intros env info context.
    rewrite (IsInGeneratedCode_exact GetFaultPc kRunnable env info context s12 _ Hreg12), Hrs12, Hrs1.
    rewrite (IsInGeneratedCode_exact GetFaultPc kRunnable env info context s21 _ Hreg21), Hrs21, Hrs2.
    simpl. do 2 f_equal.
    by destruct (range_in _ (a1, n1)), (range_in _ (a2, n2)).
Qed.

End RegistryProperties.

Section RemoveProperties.
Context {siginfo_t ucontext_t : Type} (GetFaultPc : siginfo_t → ucontext_t → Z).
Context {ThreadState : Type} (kRunnable : ThreadState) `{EqDecision ThreadState}.
Implicit Types (env : Env ThreadState) (info : siginfo_t) (context : ucontext_t).
Implicit Types (s : FaultManager) (l : list ptr).

Lemma RemoveGeneratedCodeRange_success env runtime s l a n rest :
  registry s l → Runtime_Current env = Some runtime →
  erase_start a (ranges_of (memory s) l) = Some (n, rest) →
  ∃ s' l', RemoveGeneratedCodeRange env a n s = Return tt s' ∧
           registry s' l' ∧ ranges_of (memory s') l' = rest.
Proof.
  intros Hl Hrt Hfirst.
  pose proof (RemoveGeneratedCodeRange_view env runtime s l a n Hl Hrt) as Hview.
  rewrite Hfirst, Z.eqb_refl in Hview.
  destruct Hview as (s' & l' & p & Hrun & Hreg & Hrs & _). by exists s', l'.
Qed.

Lemma existsb_erase_start pc a n rs rest :
  erase_start a rs = Some (n, rest) →
  existsb (range_in pc) rs = range_in pc (a, n) || existsb (range_in pc) rest.
Proof.
  intros (rs1 & rs2 & -> & -> & _)%erase_start_Some.
  rewrite !existsb_app. simpl.
  by destruct (existsb _ rs1), (range_in pc (a, n)).
Qed.

(** X8: removing a range and registering it again restores every lookup
    answer (the pair moves to the front of the list, and the new node may
    or may not reuse the address of the freed one). *)
Theorem X8_remove_then_add_restores_lookups env runtime s l a n rest p :
  registry s l → Runtime_Current env = Some runtime →
  erase_start a (ranges_of (memory s) l) = Some (n, rest) →
  p ≠ nullptr →
  (∀ s1, RemoveGeneratedCodeRange env a n s = Return tt s1 →
         memory s1 !! p = None) →
  ∃ s', (RemoveGeneratedCodeRange env a n;; AddGeneratedCodeRange p a n) s
        = Return tt s' ∧
        ∀ env' info context,
          returned (IsInGeneratedCode GetFaultPc kRunnable env' info context s') =
          returned (IsInGeneratedCode GetFaultPc kRunnable env' info context s).
Proof.
  intros Hl Hrt Hfirst Hne Hfresh.
  destruct (RemoveGeneratedCodeRange_success env runtime s l a n rest Hl Hrt Hfirst)
    as (s1 & l1 & Hrun1 & Hreg1 & Hrs1).
  destruct (AddGeneratedCodeRange_view p a n s1 l1 Hne (Hfresh s1 Hrun1) Hreg1)
    as (s' & Hrun & Hreg & Hrs & _).
  exists s'. split.
  - unfold bind. by rewrite Hrun1.
  - intros env' info context.
    rewrite (IsInGeneratedCode_exact GetFaultPc kRunnable env' info context s l Hl).
    rewrite (IsInGeneratedCode_exact GetFaultPc kRunnable env' info context s' _ Hreg).
    rewrite Hrs, Hrs1. simpl. do 2 f_equal.
    by rewrite (existsb_erase_start _ a n _ rest Hfirst).
Qed.

(** X9: two ranges registered at the same start address are removed last
    in, first out: [RemoveGeneratedCodeRange] finds the more recent one, so
    it aborts on every size but the more recent one's, and with that size it
    leaves the older registration in place. *)
Theorem X9_same_start_removed_last_in_first_out env runtime s l p1 p2 a n1 n2 :
  p1 ≠ nullptr → p2 ≠ nullptr → p1 ≠ p2 →
  memory s !! p1 = None → memory s !! p2 = None →
  registry s l → Runtime_Current env = Some runtime →
  ∃ s2, (AddGeneratedCodeRange p1 a n1;; AddGeneratedCodeRange p2 a n2) s
        = Return tt s2 ∧
        (∀ n, n ≠ n2 → ∃ s', RemoveGeneratedCodeRange env a n s2 = Abort s') ∧
        ∃ s3 l3, RemoveGeneratedCodeRange env a n2 s2 = Return tt s3 ∧
                 registry s3 l3 ∧
                 ranges_of (memory s3) l3 = (a, n1) :: ranges_of (memory s) l.
Proof.
  intros Hne1 Hne2 Hne12 Hf1 Hf2 Hl Hrt.
  destruct (AddGeneratedCodeRange_view p1 a n1 s l Hne1 Hf1 Hl)
    as (s1 & Hrun1 & Hreg1 & Hrs1 & _ & _ & _ & _ & Hmem1).
  destruct (AddGeneratedCodeRange_view p2 a n2 s1 (p1 :: l) Hne2)
    as (s2 & Hrun2 & Hreg2 & Hrs2 & _); [by rewrite Hmem1|done|].
  rewrite Hrs1 in Hrs2.
  assert (erase_start a (ranges_of (memory s2) (p2 :: p1 :: l)) =
          Some (n2, (a, n1) :: ranges_of (memory s) l)) as Hfirst.
  { rewrite Hrs2. simpl. by rewrite Z.eqb_refl. }
  exists s2. split_and!.
  - unfold bind. by rewrite Hrun1.
  - intros n Hn.
    pose proof (RemoveGeneratedCodeRange_view env runtime s2 _ a n Hreg2 Hrt)
      as Hview.
    rewrite Hfirst in Hview. apply not_eq_sym, Z.eqb_neq in Hn.
    by rewrite Hn in Hview.
  - by apply (RemoveGeneratedCodeRange_success env runtime s2 (p2 :: p1 :: l)).
Qed.

(** X10: a successful removal only forgets the removed pair: afterwards a
    fault is classified as in generated code exactly when the guards pass
    and its PC passes the test of one of the remaining pairs, so lookups
    inside the other registered ranges are not affected. *)
Theorem X10_lookup_after_remove env runtime s l a n rest :
  registry s l → Runtime_Current env = Some runtime →
  erase_start a (ranges_of (memory s) l) = Some (n, rest) →
  ∃ s', RemoveGeneratedCodeRange env a n s = Return tt s' ∧
        ∀ env' info context,
          IsInGeneratedCode GetFaultPc kRunnable env' info context s' =
          Return (passes_guards GetFaultPc kRunnable env' info context &&
                  existsb (range_in (GetFaultPc info context)) rest) s'.
Proof.
  intros Hl Hrt Hfirst.
  destruct (RemoveGeneratedCodeRange_success env runtime s l a n rest Hl Hrt Hfirst)
    as (s' & l' & Hrun & Hreg & Hrs).
  exists s'. split; [done|]. intros env' info context.
  by rewrite (IsInGeneratedCode_exact GetFaultPc kRunnable env' info context s' l' Hreg),
    Hrs.
Qed.

End RemoveProperties.

(** ** Shutdown, Release and Init *)

Lemma foldl_delete_lookup (h : gmap Z GeneratedCodeRange) (l : list ptr) (x : ptr) :
  foldl (λ m y, delete y m) h l !! x = if decide (x ∈ l) then None else h !! x.
Proof.
  revert h. induction l as [|a l IH]; intros h.
  - destruct (decide (x ∈ [])) as [Hin|_]; [|done].
    by apply not_elem_of_nil in Hin.
  - change (foldl (λ m y, delete y m) h (a :: l))
      with (foldl (λ m y, delete y m) (delete a h) l).
    rewrite IH.
    destruct (decide (x ∈ l)) as [Hin|Hout], (decide (x ∈ a :: l)) as [Hin'|Hout'];
      try done.
    + exfalso. apply Hout'. by right.
    + apply elem_of_cons in Hin' as [->|?]; [|done]. apply lookup_delete_eq.
    + apply lookup_delete_ne. intros ->. apply Hout'. by left.
Qed.

(** The draining loop never touches the initialized flag. *)
Lemma delete_ranges_initialized fuel p s s' :
  delete_ranges fuel p s = Return tt s' → initialized_ s' = initialized_ s.
Proof.
  revert p s. induction fuel as [|fuel IH]; intros p s; simpl; [done|].
  unfold ret. destruct (p =? nullptr); [intros ?; by simplify_eq|].
  mstep. destruct (memory s !! p) as [r|] eqn:Hr; simpl; [|done].
  rewrite Hr. intros Hrun. by rewrite (IH _ _ Hrun).
Qed.

Section LifecycleProperties.
Context {siginfo_t ucontext_t : Type} (GetFaultPc : siginfo_t → ucontext_t → Z).
Context {ThreadState : Type} (kRunnable : ThreadState) `{EqDecision ThreadState}.
Implicit Types (env : Env ThreadState) (info : siginfo_t) (context : ucontext_t).
Implicit Types (s : FaultManager) (l : list ptr).

(** X11: [Shutdown] on an initialized manager with a well-formed registry
    returns with every node of the registry freed and no other node
    touched, the list head null, both handler vectors empty after one
    [delete] per entry, and the flag cleared; afterwards no fault is
    classified as in generated code. *)
Theorem X11_shutdown_frees_everything s l :
  initialized_ s = true → registry s l →
  ∃ s', Shutdown s = Return tt s' ∧
        registry s' [] ∧
        (∀ p : ptr, p ∈ l → memory s' !! p = None) ∧
        (∀ x : ptr, x ∉ l → memory s' !! x = memory s !! x) ∧
        generated_code_handlers_ s' = [] ∧ other_handlers_ s' = [] ∧
        initialized_ s' = false ∧
        trace s' = trace s ++ [Ev_RemoveSpecialSignalHandlerFn] ++
                   (Ev_delete_handler <$> generated_code_handlers_ s) ++
                   (Ev_delete_handler <$> other_handlers_ s) ∧
        ∀ env info context,
          IsInGeneratedCode GetFaultPc kRunnable env info context s' =
          Return false s'.
Proof.
  intros Hinit Hl. eexists. split; [by apply (Shutdown_initialized s l)|].
  split_and!; try done.
  - intros p Hp. simpl. rewrite foldl_delete_lookup. by rewrite decide_True.
  - intros x Hx. simpl. rewrite foldl_delete_lookup. by rewrite decide_False.
  - intros env info context.
    rewrite (IsInGeneratedCode_exact GetFaultPc kRunnable env info context _ []);
      [|done].
    simpl. by rewrite andb_false_r.
Qed.

(** X12: [Shutdown] acts only on an initialized manager.  After [Release]
    it returns without touching anything, so the handlers and ranges that
    are registered when [Release] is called are not freed by a later
    [Shutdown]; and a second [Shutdown] changes nothing. *)
Theorem X12_shutdown_after_release_frees_nothing s :
  (∃ s', Release s = Return tt s' ∧ Shutdown s' = Return tt s' ∧
         memory s' = memory s ∧
         generated_code_ranges_ s' = generated_code_ranges_ s ∧
         generated_code_handlers_ s' = generated_code_handlers_ s ∧
         other_handlers_ s' = other_handlers_ s) ∧
  (∀ s', Shutdown s = Return tt s' → Shutdown s' = Return tt s').
Proof.
  assert (∀ s0, initialized_ s0 = false → Shutdown s0 = Return tt s0) as Hnoop.
  { intros s0 H0. unfold Shutdown, bind, get, ret. by rewrite H0. }
  split.
  - unfold Release, bind, get. destruct (initialized_ s) eqn:Hinit.
    + eexists. split; [reflexivity|]. split; [by apply Hnoop|done].
    + exists s. split_and!; try done. by apply Hnoop.
  - intros s' Hrun. apply Hnoop. revert Hrun.
    unfold Shutdown, bind at 1. unfold get at 1.
    destruct (initialized_ s) eqn:Hinit; [|unfold ret; intros ?; by simplify_eq].
    unfold Release, bind at 1. unfold bind at 1. unfold get at 1.
    rewrite Hinit. unfold bind at 1. unfold emit, modify at 1 2.
    unfold bind at 1. unfold get at 1. unfold bind at 1.
    rewrite STLDeleteContainerPointers_run.
    unfold bind at 1. unfold modify at 1. unfold bind at 1. unfold get at 1.
    unfold bind at 1. rewrite STLDeleteContainerPointers_run.
    unfold bind at 1. unfold modify at 1. unfold bind, loop_bound, get.
    cbv beta iota. unfold atomic_load, atomic_store, get, modify. cbv beta iota.
    intros Hrun. by rewrite (delete_ranges_initialized _ _ _ _ Hrun).
Qed.

(** X13: [Init] on an uninitialized manager succeeds whatever
    [membarrier(kRegisterPrivateExpedited)] returns: a nonzero result only
    adds a warning.  It installs the signal handler and sets the flag, and a
    following [Release] removes the handler and clears the flag again,
    leaving the registry and the handler vectors as they were. *)
Theorem X13_init_release_round_trip env s :
  initialized_ s = false →
  ∃ s1 s2,
    Init env s = Return tt s1 ∧ initialized_ s1 = true ∧
    Release s1 = Return tt s2 ∧ same_manager s s2 ∧
    trace s2 =
      trace s ++
      [Ev_AddSpecialSignalHandlerFn; Ev_membarrier kRegisterPrivateExpedited] ++
      (if membarrier env kRegisterPrivateExpedited =? 0 then []
       else [Ev_LOG_WARNING]) ++
      [Ev_RemoveSpecialSignalHandlerFn].
Proof.
  intros Hinit. eexists. eexists.
  split; [by apply Init_uninitialized|]. split; [done|].
  split; [reflexivity|]. split.
  - unfold same_manager. simpl. by rewrite Hinit.
  - simpl. rewrite <- !app_assoc. simpl.
    by destruct (membarrier env kRegisterPrivateExpedited =? 0).
Qed.

End LifecycleProperties.

(** ** The handler vectors *)

Lemma find_erase_first handler l1 l2 :
  handler ∉ l1 → find_erase handler (l1 ++ handler :: l2) = Some (l1 ++ l2).
Proof.
  induction l1 as [|h l1 IH]; intros Hnot; simpl.
  - by rewrite Z.eqb_refl.
  - apply not_elem_of_cons in Hnot as [Hne Hnot].
    destruct (Z.eqb_spec h handler) as [Heq|_]; [congruence|].
    by rewrite IH.
Qed.

Lemma find_erase_absent handler l :
  handler ∉ l → find_erase handler l = None.
Proof.
  induction l as [|h l IH]; intros Hnot; simpl; [done|].
  apply not_elem_of_cons in Hnot as [Hne Hnot].
  destruct (Z.eqb_spec h handler); [congruence|]. by rewrite IH.
Qed.

Lemma set_generated_code_handlers_id s :
  set_generated_code_handlers_ (generated_code_handlers_ s) s = s.
Proof. by destruct s. Qed.

Lemma set_other_handlers_id s :
  set_other_handlers_ (other_handlers_ s) s = s.
Proof. by destruct s. Qed.

(** X14: [RemoveHandler] erases one entry: the first occurrence of the
    handler in the generated-code vector if it occurs there (the other
    vector is then left alone even if it holds the handler too), and
    otherwise its first occurrence in the other-handlers vector.  The
    remaining entries keep their order. *)
Theorem X14_remove_handler_erases_first_occurrence s handler l1 l2 :
  handler ∉ l1 →
  (generated_code_handlers_ s = l1 ++ handler :: l2 →
   RemoveHandler handler s =
   Return tt (set_generated_code_handlers_ (l1 ++ l2) s)) ∧
  (handler ∉ generated_code_handlers_ s →
   other_handlers_ s = l1 ++ handler :: l2 →
   RemoveHandler handler s =
   Return tt (set_other_handlers_ (l1 ++ l2) s)).
Proof.
  intros Hnot. split.
  - intros Hgen. unfold RemoveHandler, bind, get.
    by rewrite Hgen, find_erase_first.
  - intros Hgen Hother. unfold RemoveHandler, bind, get.
    by rewrite (find_erase_absent _ _ Hgen), Hother, find_erase_first.
Qed.

(** X15: constructing a handler and removing it again is a round trip.
    For a handler that is in neither vector, each of the four constructors
    followed by [RemoveHandler] returns the manager exactly as it was
    (in a debug build the constructors assert that the manager is
    initialized). *)
Theorem X15_construct_then_remove_handler {ThreadState} (env : Env ThreadState)
  s this :
  this ∉ generated_code_handlers_ s → this ∉ other_handlers_ s →
  kIsDebugBuild env = false ∨ initialized_ s = true →
  (NullPointerHandler_new env this;; RemoveHandler this) s = Return tt s ∧
  (SuspensionHandler_new env this;; RemoveHandler this) s = Return tt s ∧
  (StackOverflowHandler_new env this;; RemoveHandler this) s = Return tt s ∧
  (JavaStackTraceHandler_new env this;; RemoveHandler this) s = Return tt s.
Proof.
  intros Hgen Hother Hok.
  assert (kIsDebugBuild env && negb (initialized_ s) = false) as Hdcheck.
  { destruct Hok as [-> | ->]; [done|]. by rewrite andb_false_r. }
  assert ((AddHandler env this true;; RemoveHandler this) s = Return tt s) as Htrue.
  { unfold bind at 1. rewrite AddHandler_appends, Hdcheck.
    unfold RemoveHandler, bind, get. simpl.
    rewrite (find_erase_first this _ [] Hgen).
    unfold modify. rewrite app_nil_r. f_equal. by destruct s. }
  assert ((AddHandler env this false;; RemoveHandler this) s = Return tt s) as Hfalse.
  { unfold bind at 1. rewrite AddHandler_appends, Hdcheck.
    unfold RemoveHandler, bind, get. simpl.
    rewrite (find_erase_absent _ _ Hgen). simpl.
    rewrite (find_erase_first this _ [] Hother).
    unfold modify. rewrite app_nil_r. f_equal. by destruct s. }
  by split_and!.
Qed.

(** ** The dispatch in general *)

Section DispatchProperties.
Context {siginfo_t ucontext_t : Type} (GetFaultPc : siginfo_t → ucontext_t → Z).
Context (Action : ptr → Z → siginfo_t → ucontext_t → bool).
Context {ThreadState : Type} (kRunnable : ThreadState) `{EqDecision ThreadState}.
Implicit Types (env : Env ThreadState) (info : siginfo_t) (context : ucontext_t).
Implicit Types (s : FaultManager) (l : list ptr) (sig : Z).

(** The outcome of [HandleFault] once classification has returned [b]. *)
Lemma HandleFault_outcome env sig info context s b :
  IsInGeneratedCode GetFaultPc kRunnable env info context s = Return b s →
  let claims h := Action h sig info context in
  let generated := if b then generated_code_handlers_ s else [] in
  let other := other_handlers_ s in
  let first := Ev_Action <$> consulted claims generated in
  HandleFault GetFaultPc Action kRunnable env sig info context s =
  if existsb claims generated then Return true (after_calls first s)
  else if other_dispatch_aborts env s then Abort (after_calls first s)
  else Return (existsb claims other)
         (after_calls (first ++ (Ev_Action <$> consulted claims other) ++
                       (if existsb claims other then []
                        else [Ev_art_sigsegv_fault])) s).
Proof.
  intros Hclass claims generated other first.
  unfold HandleFault, bind at 1. rewrite Hclass.
  assert ((if b
           then generated <- get generated_code_handlers_;;
                any_Action Action generated sig info context
           else ret false) s =
          Return (existsb claims generated) (after_calls first s)) as Hfirst.
  { subst first generated. destruct b.
    - unfold bind, get. by rewrite any_Action_consulted.
    - unfold ret. by rewrite after_calls_nil. }
  unfold bind at 1. rewrite Hfirst.
  destruct (existsb claims generated); [done|].
  unfold bind at 1. rewrite HandleFaultByOtherHandlers_outcome.
  set (s1 := after_calls first s).
  assert (other_handlers_ s1 = other) as -> by done. fold claims.
  unfold other_dispatch_aborts. fold other.
  destruct (bool_decide (other = [])) eqn:Hnil; simpl.
  - apply bool_decide_eq_true in Hnil. rewrite Hnil. simpl.
    unfold bind. rewrite art_sigsegv_fault_run. unfold ret. f_equal.
    subst s1. by rewrite after_calls_app.
  - destruct (kIsDebugBuild env && negb (other_handlers_asserts env)); [done|].
    destruct (existsb claims other); simpl.
    + f_equal. subst s1. by rewrite after_calls_app, app_nil_r.
    + unfold bind. rewrite art_sigsegv_fault_run. unfold ret. f_equal.
      subst s1. by rewrite !after_calls_app.
Qed.

Lemma consulted_last_claims {A} (claims : A → bool) (k : list A) :
  existsb claims k = true → ∃ x, last (consulted claims k) = Some x.
Proof.
  induction k as [|a k IH]; simpl; [done|].
  destruct (claims a) eqn:Ha; simpl.
  - intros _. by exists a.
  - intros Hk. destruct (IH Hk) as [x Hx]. exists x.
    rewrite last_cons. by rewrite Hx.
Qed.

Lemma last_after_Actions (t : list Event) (k : list ptr) x :
  last k = Some x → last (t ++ (Ev_Action <$> k)) = Some (Ev_Action x).
Proof. intros Hk. by rewrite last_app, fmap_last, Hk. Qed.

(** X16: the dispatch in full, on a well-formed registry.  The
    generated-code handlers are consulted only for a fault classified as in
    generated code; the other handlers only if no generated-code handler
    claimed; each vector in order up to the first handler that claims.
    [HandleFault] returns true exactly when a consulted handler claims, and
    it calls [art_sigsegv_fault], as its last call, exactly when it returns
    false.  It aborts only on the assertions of
    [HandleFaultByOtherHandlers]. *)
Theorem X16_dispatch_outcome env sig info context s l :
  registry s l →
  let claims h := Action h sig info context in
  let other := other_handlers_ s in
  ∃ b,
    IsInGeneratedCode GetFaultPc kRunnable env info context s = Return b s ∧
    let generated := if b then generated_code_handlers_ s else [] in
    let first := Ev_Action <$> consulted claims generated in
    HandleFault GetFaultPc Action kRunnable env sig info context s =
    (if existsb claims generated then Return true (after_calls first s)
     else if other_dispatch_aborts env s then Abort (after_calls first s)
     else Return (existsb claims other)
            (after_calls (first ++ (Ev_Action <$> consulted claims other) ++
                          (if existsb claims other then []
                           else [Ev_art_sigsegv_fault])) s)) ∧
    ∀ result s',
      HandleFault GetFaultPc Action kRunnable env sig info context s
        = Return result s' →
      (result = false ↔ last (trace s') = Some Ev_art_sigsegv_fault).
Proof.
  intros Hl claims other.
  destruct (IsInGeneratedCode_returns GetFaultPc kRunnable env info context s l Hl)
    as [b Hclass].
  exists b. split; [done|]. intros generated first.
  pose proof (HandleFault_outcome env sig info context s b Hclass) as Hout.
  simpl in Hout. fold claims generated other first in Hout.
  split; [exact Hout|]. intros result s'. rewrite Hout.
  destruct (existsb claims generated) eqn:Hgen.
  - intros [= <- <-]. destruct (consulted_last_claims _ _ Hgen) as [x Hx].
    unfold after_calls, first. simpl. rewrite (last_after_Actions _ _ x Hx).
    split; intros; done.
  - destruct (other_dispatch_aborts env s); [done|].
    destruct (existsb claims other) eqn:Hoth; intros [= <- <-].
    + destruct (consulted_last_claims _ _ Hoth) as [x Hx].
      unfold after_calls. simpl. rewrite app_nil_r, app_assoc.
      rewrite (last_after_Actions _ _ x Hx). split; intros; done.
    + unfold after_calls. simpl. rewrite !app_assoc, last_snoc. done.
Qed.

(** X17: registering one more handler never turns a claimed fault into an
    unclaimed one: if [HandleFault] returns true for a fault, it still
    returns true for the same fault after [AddHandler]. *)
Theorem X17_add_handler_keeps_claims env sig info context s l handler
  generated_code s1 s' :
  registry s l →
  HandleFault GetFaultPc Action kRunnable env sig info context s
    = Return true s1 →
  AddHandler env handler generated_code s = Return tt s' →
  ∃ s1', HandleFault GetFaultPc Action kRunnable env sig info context s'
         = Return true s1'.
Proof.
  intros Hl Hrun Hadd.
  rewrite AddHandler_appends in Hadd.
  destruct (kIsDebugBuild env && negb (initialized_ s)); [done|].
  injection Hadd as <-.
  set (claims h := Action h sig info context).
  set (b := passes_guards GetFaultPc kRunnable env info context &&
            existsb (range_in (GetFaultPc info context)) (ranges_of (memory s) l)).
  pose proof (IsInGeneratedCode_exact GetFaultPc kRunnable env info context s l Hl)
    as Hclass. fold b in Hclass.
  rewrite (HandleFault_outcome env sig info context s b Hclass) in Hrun.
  simpl in Hrun. fold claims in Hrun.
  destruct generated_code.
  - set (s' := set_generated_code_handlers_ _ s).
    assert (IsInGeneratedCode GetFaultPc kRunnable env info context s' = Return b s')
      as Hclass'
      by exact (IsInGeneratedCode_exact GetFaultPc kRunnable env info context s' l Hl).
    rewrite (HandleFault_outcome env sig info context s' b Hclass').
    simpl. fold claims.
    assert (other_dispatch_aborts env s' = other_dispatch_aborts env s) as -> by done.
    destruct b; simpl in *.
    + rewrite existsb_app.
      destruct (existsb claims (generated_code_handlers_ s)); simpl; [by eexists|].
      destruct (claims handler); simpl; [by eexists|].
      destruct (other_dispatch_aborts env s); [done|].
      destruct (existsb claims (other_handlers_ s)); [by eexists|done].
    + destruct (other_dispatch_aborts env s); [done|].
      destruct (existsb claims (other_handlers_ s)); [by eexists|done].
  - set (s' := set_other_handlers_ _ s).
    assert (IsInGeneratedCode GetFaultPc kRunnable env info context s' = Return b s')
      as Hclass'
      by exact (IsInGeneratedCode_exact GetFaultPc kRunnable env info context s' l Hl).
    rewrite (HandleFault_outcome env sig info context s' b Hclass').
    cbv zeta. fold claims.
    change (other_handlers_ s') with (other_handlers_ s ++ [handler]).
    change (generated_code_handlers_ s') with (generated_code_handlers_ s).
    destruct (existsb claims (if b then generated_code_handlers_ s else []));
      [by eexists|].
    assert (other_handlers_ s ≠ [] →
            other_dispatch_aborts env s' = other_dispatch_aborts env s) as Habort.
    { intros Hne. unfold other_dispatch_aborts. simpl.
      rewrite !bool_decide_eq_false_2; [done|done|].
      by destruct (other_handlers_ s). }
    destruct (other_dispatch_aborts env s) eqn:Hab; [done|].
    destruct (existsb claims (other_handlers_ s)) eqn:Hoth; [|done].
    rewrite Habort by (by destruct (other_handlers_ s)).
    rewrite existsb_app, Hoth. by eexists.
Qed.

End DispatchProperties.

(** ** The handlers *)

Ltac reads_goal :=
  first
    [ done
    | simpl; lia
    | by repeat constructor
    | intros ? ? ?; done
    | intros ? ? [= <- <-]; split_and!; try done; by repeat constructor
    | intros _; eexists; split; [reflexivity|]; (by left) || (by right) ].

Ltac reads_goals := split_and!; reads_goal.

Section HandlerProperties.
Context {siginfo_t ucontext_t : Type} (GetFaultPc : siginfo_t → ucontext_t → Z).
Context {ThreadState : Type} (kRunnable : ThreadState) `{EqDecision ThreadState}.
Context (kObjectAlignment : Z) (DeclaringClass GetClass : ptr → option ptr).
Context (GetFaultSp : ucontext_t → Z).
Implicit Types (env : Env ThreadState) (info : siginfo_t) (context : ucontext_t).
Implicit Types (s : FaultManager) (l : list ptr) (method : ptr).

Lemma IsInGeneratedCode_state env info context s b s' :
  IsInGeneratedCode GetFaultPc kRunnable env info context s = Return b s' →
  s' = s.
Proof.
  destruct (IsInGeneratedCode_cases GetFaultPc kRunnable env info context s)
    as [Hrun|Hrun]; rewrite Hrun.
  - intros ?. by simplify_eq.
  - apply walk_ranges_readonly.
Qed.

(** X18: [IsValidMethod] reads memory only through pointers it has
    checked.  A null or misaligned [method] is rejected without any read;
    in all it reads through at most three addresses, none of them null, the
    first being [method] itself (pointer-aligned) and the others
    object-aligned; and if the check is cut short by a nested fault, the
    fault is at the last of these addresses. *)
Theorem X18_IsValidMethod_reads_checked_pointers method :
  let run := IsValidMethod kObjectAlignment DeclaringClass GetClass method in
  ((method =? nullptr) || negb (IsAligned sizeof_pointer method) = true →
   run = ([], Some false)) ∧
  (length run.1 ≤ 3)%nat ∧
  Forall (λ p, p ≠ nullptr) run.1 ∧
  (∀ p rest, run.1 = p :: rest →
             p = method ∧ IsAligned sizeof_pointer p = true ∧
             Forall (λ q, IsAligned kObjectAlignment q = true) rest) ∧
  (run.2 = None →
   ∃ p, last run.1 = Some p ∧ (DeclaringClass p = None ∨ GetClass p = None)).
Proof.
  unfold IsValidMethod, reads_bind, read_through, reads_ret.
  destruct (Z.eqb_spec method nullptr) as [Hm|Hm]; simpl; [reads_goals|].
  destruct (IsAligned sizeof_pointer method) eqn:Hma; simpl; [|reads_goals].
  destruct (DeclaringClass method) as [klass|] eqn:Hdc; simpl; [|reads_goals].
  destruct (Z.eqb_spec klass nullptr) as [Hk|Hk]; simpl; [reads_goals|].
  destruct (IsAligned kObjectAlignment klass) eqn:Hka; simpl; [|reads_goals].
  destruct (GetClass klass) as [class_class|] eqn:Hgc; simpl; [|reads_goals].
  destruct (Z.eqb_spec class_class nullptr) as [Hc|Hc]; simpl; [reads_goals|].
  destruct (IsAligned kObjectAlignment class_class) eqn:Hca; simpl; [|reads_goals].
  destruct (GetClass class_class) as [ccc|] eqn:Hgcc; simpl; [|reads_goals].
  destruct (class_class =? ccc); simpl; reads_goals.
Qed.

(** X19: what [IsValidMethod] accepts.  It returns true exactly when
    [method] is non-null and pointer-aligned, its declaring class is
    non-null and object-aligned, the class of that class is non-null and
    object-aligned, and this last class is its own class. *)
Theorem X19_IsValidMethod_accepts method :
  (IsValidMethod kObjectAlignment DeclaringClass GetClass method).2 = Some true ↔
  method ≠ nullptr ∧ IsAligned sizeof_pointer method = true ∧
  ∃ klass class_class,
    DeclaringClass method = Some klass ∧
    klass ≠ nullptr ∧ IsAligned kObjectAlignment klass = true ∧
    GetClass klass = Some class_class ∧
    class_class ≠ nullptr ∧ IsAligned kObjectAlignment class_class = true ∧
    GetClass class_class = Some class_class.
Proof.
  unfold IsValidMethod, reads_bind, read_through, reads_ret. split.
  - destruct (Z.eqb_spec method nullptr) as [Hm|Hm]; simpl; [done|].
    destruct (IsAligned sizeof_pointer method) eqn:Hma; simpl; [|done].
    destruct (DeclaringClass method) as [klass|] eqn:Hdc; simpl; [|done].
    destruct (Z.eqb_spec klass nullptr) as [Hk|Hk]; simpl; [done|].
    destruct (IsAligned kObjectAlignment klass) eqn:Hka; simpl; [|done].
    destruct (GetClass klass) as [class_class|] eqn:Hgc; simpl; [|done].
    destruct (Z.eqb_spec class_class nullptr) as [Hc|Hc]; simpl; [done|].
    destruct (IsAligned kObjectAlignment class_class) eqn:Hca; simpl; [|done].
    destruct (GetClass class_class) as [ccc|] eqn:Hgcc; simpl; [|done].
    destruct (Z.eqb_spec class_class ccc) as [<-|Hne]; simpl; [|done].
    intros _. split_and!; try done. exists klass, class_class. done.
  - intros (Hm & Hma & klass & class_class & Hdc & Hk & Hka & Hgc & Hc & Hca & Hgcc).
    apply Z.eqb_neq in Hm, Hk, Hc.
    rewrite Hm, Hma. simpl. rewrite Hdc. simpl. rewrite Hk, Hka. simpl.
    rewrite Hgc. simpl. rewrite Hc, Hca. simpl. rewrite Hgcc. simpl.
    by rewrite Z.eqb_refl.
Qed.

(** X20: [JavaStackTraceHandler::Action] never claims and never changes the
    fault manager.  On a well-formed registry: for a fault that is not
    classified as in generated code it does nothing; for one that is it
    sets the top of stack to the fault SP (and dumps the stack), unless
    that SP is zero, in which case it aborts. *)
Theorem X20_JavaStackTraceHandler_never_claims env sig info context s :
  (∀ claimed frame s',
     JavaStackTraceHandler_Action GetFaultPc kRunnable GetFaultSp env sig info context s
       = Return (claimed, frame) s' →
     claimed = false ∧ s' = s) ∧
  (∀ l, registry s l →
     ∃ b, IsInGeneratedCode GetFaultPc kRunnable env info context s = Return b s ∧
          JavaStackTraceHandler_Action GetFaultPc kRunnable GetFaultSp env sig info
            context s =
          if b then
            if GetFaultSp context =? 0 then Abort s
            else Return (false, Some (GetFaultSp context)) s
          else Return (false, None) s).
Proof.
  split.
  - intros claimed frame s'. unfold JavaStackTraceHandler_Action, bind at 1.
    destruct (IsInGeneratedCode GetFaultPc kRunnable env info context s)
      as [b s0| | |] eqn:Hclass; try done.
    apply IsInGeneratedCode_state in Hclass as ->.
    destruct b; unfold bind, CHECK, ret, abort.
    + destruct (GetFaultSp context =? 0); simpl; [done|].
      intros ?. by simplify_eq.
    + intros ?. by simplify_eq.
  - intros l Hl.
    destruct (IsInGeneratedCode_returns GetFaultPc kRunnable env info context s l Hl)
      as [b Hclass].
    exists b. split; [done|].
    unfold JavaStackTraceHandler_Action, bind at 1. rewrite Hclass.
    destruct b; [|done]. unfold bind, CHECK, ret, abort.
    by destruct (GetFaultSp context =? 0).
Qed.

End HandlerProperties.

(** ** Signal code names *)

(** X21.  [SignalCodeName] gives a name other than UNKNOWN exactly for the
    signal [SIGSEGV] with one of the four codes of its [switch]; when the
    four case labels are pairwise distinct, as a [switch] requires, a name
    other than UNKNOWN determines the signal and the code. *)
Theorem X21_SignalCodeName_names_known_codes SIGSEGV SEGV_MAPERR SEGV_ACCERR
  sig code :
  NoDup [SEGV_MAPERR; SEGV_ACCERR; 8; 9] →
  let name := SignalCodeName SIGSEGV SEGV_MAPERR SEGV_ACCERR in
  (name sig code ≠ "UNKNOWN"%string ↔
   sig = SIGSEGV ∧ code ∈ [SEGV_MAPERR; SEGV_ACCERR; 8; 9]) ∧
  (∀ sig' code', name sig code ≠ "UNKNOWN"%string →
                 name sig code = name sig' code' →
                 sig = sig' ∧ code = code').
Proof.
  intros Hlabels name. subst name.
  apply NoDup_cons in Hlabels as [Hm Hlabels].
  apply NoDup_cons in Hlabels as [Ha Hlabels].
  apply not_elem_of_cons in Hm as [Hma Hm].
  apply not_elem_of_cons in Hm as [Hm8 Hm].
  apply not_elem_of_cons in Hm as [Hm9 _].
  apply not_elem_of_cons in Ha as [Ha8 Ha].
  apply not_elem_of_cons in Ha as [Ha9 _].
  clear Hlabels. split.
  - unfold SignalCodeName. split.
    + destruct (Z.eqb_spec sig SIGSEGV) as [->|]; simpl; [|done].
      intros Hname. split; [done|].
      destruct (Z.eqb_spec code SEGV_MAPERR) as [->|]; [by left|].
      destruct (Z.eqb_spec code SEGV_ACCERR) as [->|]; [by right; left|].
      destruct (Z.eqb_spec code 8) as [->|]; [by do 2 right; left|].
      destruct (Z.eqb_spec code 9) as [->|]; [by do 3 right; left|].
      done.
    + intros [-> Hcode]. rewrite Z.eqb_refl. simpl.
      destruct (Z.eqb_spec code SEGV_MAPERR); [done|].
      destruct (Z.eqb_spec code SEGV_ACCERR); [done|].
      destruct (Z.eqb_spec code 8); [done|].
      destruct (Z.eqb_spec code 9); [done|].
      exfalso. repeat (apply elem_of_cons in Hcode as [?|Hcode]; [done|]).
      by apply elem_of_nil in Hcode.
  - intros sig' code'. unfold SignalCodeName.
    destruct (Z.eqb_spec sig SIGSEGV) as [->|]; simpl; [|done].
    destruct (Z.eqb_spec sig' SIGSEGV) as [->|]; simpl.
    + destruct (Z.eqb_spec code SEGV_MAPERR) as [->|];
        [|destruct (Z.eqb_spec code SEGV_ACCERR) as [->|];
          [|destruct (Z.eqb_spec code 8) as [->|];
            [|destruct (Z.eqb_spec code 9) as [->|]; [|done]]]];
        (destruct (Z.eqb_spec code' SEGV_MAPERR) as [->|];
         [|destruct (Z.eqb_spec code' SEGV_ACCERR) as [->|];
           [|destruct (Z.eqb_spec code' 8) as [->|];
             [|destruct (Z.eqb_spec code' 9) as [->|]]]]);
        intros _ Heq; first [done | discriminate Heq].
    + intros Hname Heq. by rewrite Heq in Hname.
Qed.

(** * The further properties at concrete inputs *)

Lemma example_three_ranges_registry :
  registry example_three_ranges [0x7020; 0x7010; 0x7000].
Proof. exact example_three_ranges_list. Defined.

(** X2, witness: the three ranges and a fault at 0x2050. *)
Lemma X2_lookup_over_pairs_witness :
  let env := example_env example_runnable true in
  registry example_three_ranges [0x7020; 0x7010; 0x7000] ∧
  IsInGeneratedCode example_GetFaultPc true env tt 0x2050 example_three_ranges =
  Return (passes_guards example_GetFaultPc true env tt 0x2050 &&
          existsb (range_in (example_GetFaultPc tt 0x2050))
            (ranges_of (memory example_three_ranges) [0x7020; 0x7010; 0x7000]))
         example_three_ranges.
Proof.
  cbv zeta. split; [apply example_three_ranges_registry|].
  apply (X2_lookup_over_pairs example_GetFaultPc true
           (example_env example_runnable true) tt 0x2050 example_three_ranges
           [0x7020; 0x7010; 0x7000]).
  apply example_three_ranges_registry.
Defined.

(** X3, witness: registering [0x2000, 0x2100) next to [0x1000, 0x1200). *)
Lemma X3_add_conses_pair_witness :
  let s := example_registry in
  ((0x7010 : ptr) ≠ nullptr ∧ memory s !! 0x7010 = None ∧ registry s [0x7000]) ∧
  ∃ s', AddGeneratedCodeRange 0x7010 0x2000 0x100 s = Return tt s' ∧
        registry s' (0x7010 :: [0x7000]) ∧
        ranges_of (memory s') (0x7010 :: [0x7000]) =
          (0x2000, 0x100) :: ranges_of (memory s) [0x7000] ∧
        trace s' = trace s ++ [Ev_membarrier kPrivateExpedited] ∧
        generated_code_handlers_ s' = generated_code_handlers_ s ∧
        other_handlers_ s' = other_handlers_ s ∧
        initialized_ s' = initialized_ s ∧
        (∀ x : ptr, x ≠ 0x7010 → memory s' !! x = memory s !! x).
Proof.
  cbv zeta. split.
  - split_and!; [discriminate | reflexivity | apply example_registry_list].
  - apply (X3_add_conses_pair 0x7010 0x2000 0x100 example_registry [0x7000]);
      [discriminate | reflexivity | apply example_registry_list].
Defined.

(** X4, witness: removing the middle one of the three ranges. *)
Lemma X4_remove_erases_first_pair_witness :
  let env := example_env example_runnable true in
  let s := example_three_ranges in
  (registry s [0x7020; 0x7010; 0x7000] ∧
   Runtime_Current env = Some (mkRuntime true true)) ∧
  ∃ s' l' p,
    RemoveGeneratedCodeRange env 0x2000 0x100 s = Return tt s' ∧
    registry s' l' ∧
    ranges_of (memory s') l' = [(0x3000, 0x100); (0x1000, 0x100)] ∧
    p ∈ [0x7020; 0x7010; 0x7000] ∧ (p ∉ l') ∧ memory s' !! p = None ∧
    generated_code_handlers_ s' = generated_code_handlers_ s ∧
    other_handlers_ s' = other_handlers_ s ∧
    initialized_ s' = initialized_ s.
Proof.
  cbv zeta. split.
  - split; [apply example_three_ranges_registry | reflexivity].
  - apply (X4_remove_erases_first_pair (example_env example_runnable true)
             (mkRuntime true true) example_three_ranges
             [0x7020; 0x7010; 0x7000] 0x2000 0x100);
      [apply example_three_ranges_registry | reflexivity].
Defined.

(** X5, witness: a fault at 0x2050 is not in generated code before
    [0x2000, 0x2100) is registered, and is afterwards. *)
Lemma X5_lookup_after_add_witness :
  let env := example_env example_runnable true in
  let s := example_registry in
  ((0x7010 : ptr) ≠ nullptr ∧ memory s !! 0x7010 = None ∧ registry s [0x7000] ∧
   IsInGeneratedCode example_GetFaultPc true env tt 0x2050 s = Return false s) ∧
  ∃ s', AddGeneratedCodeRange 0x7010 0x2000 0x100 s = Return tt s' ∧
        IsInGeneratedCode example_GetFaultPc true env tt 0x2050 s' =
        Return (passes_guards example_GetFaultPc true env tt 0x2050 &&
                range_contains (example_GetFaultPc tt 0x2050) 0x2000 0x100 || false) s'.
Proof.
  cbv zeta. split.
  - split_and!; [discriminate | reflexivity | apply example_registry_list
                 | vm_compute; reflexivity].
  - apply (X5_lookup_after_add example_GetFaultPc true
             (example_env example_runnable true) tt 0x2050 0x7010 0x2000 0x100
             example_registry [0x7000] false);
      [discriminate | reflexivity | apply example_registry_list
       | vm_compute; reflexivity].
Defined.

(** X6, witness: registering the empty range at 0x2000. *)
Lemma X6_empty_range_matches_nothing_witness :
  let s := example_registry in
  ((0x7010 : ptr) ≠ nullptr ∧ memory s !! 0x7010 = None ∧ registry s [0x7000]) ∧
  ∃ s', AddGeneratedCodeRange 0x7010 0x2000 0 s = Return tt s' ∧
        ∀ (env : Env bool) (info : unit) (context : Z),
          returned (IsInGeneratedCode example_GetFaultPc true env info context s') =
          returned (IsInGeneratedCode example_GetFaultPc true env info context s).
Proof.
  cbv zeta. split.
  - split_and!; [discriminate | reflexivity | apply example_registry_list].
  - apply (X6_empty_range_matches_nothing example_GetFaultPc true 0x7010 0x2000
             example_registry [0x7000]);
      [discriminate | reflexivity | apply example_registry_list].
Defined.

(** X7, witness: [0x2000, 0x2100) and [0x3000, 0x3100) in either order. *)
Lemma X7_adds_commute_witness :
  let s := example_registry in
  ((0x7010 : ptr) ≠ nullptr ∧ (0x7020 : ptr) ≠ nullptr ∧ (0x7010 : ptr) ≠ 0x7020 ∧
   memory s !! 0x7010 = None ∧ memory s !! 0x7020 = None ∧ registry s [0x7000]) ∧
  ∃ s12 s21,
    (AddGeneratedCodeRange 0x7010 0x2000 0x100;;
     AddGeneratedCodeRange 0x7020 0x3000 0x100) s = Return tt s12 ∧
    (AddGeneratedCodeRange 0x7020 0x3000 0x100;;
     AddGeneratedCodeRange 0x7010 0x2000 0x100) s = Return tt s21 ∧
    ∀ (env : Env bool) (info : unit) (context : Z),
      returned (IsInGeneratedCode example_GetFaultPc true env info context s12) =
      returned (IsInGeneratedCode example_GetFaultPc true env info context s21).
Proof.
  cbv zeta. split.
  - split_and!; [discriminate | discriminate | discriminate | reflexivity
                 | reflexivity | apply example_registry_list].
  - apply (X7_adds_commute example_GetFaultPc true 0x7010 0x7020 0x2000 0x100
             0x3000 0x100 example_registry [0x7000]);
      [discriminate | discriminate | discriminate | reflexivity | reflexivity
       | apply example_registry_list].
Defined.

(** X8, witness: the middle one of the three ranges is removed and
    registered again in a node that reuses the freed address. *)
Lemma X8_remove_then_add_restores_lookups_witness :
  let env := example_env example_runnable true in
  let s := example_three_ranges in
  (registry s [0x7020; 0x7010; 0x7000] ∧
   Runtime_Current env = Some (mkRuntime true true) ∧
   erase_start 0x2000 (ranges_of (memory s) [0x7020; 0x7010; 0x7000]) =
     Some (0x100, [(0x3000, 0x100); (0x1000, 0x100)]) ∧
   (0x7010 : ptr) ≠ nullptr ∧
   (∀ s1, RemoveGeneratedCodeRange env 0x2000 0x100 s = Return tt s1 →
          memory s1 !! 0x7010 = None)) ∧
  ∃ s', (RemoveGeneratedCodeRange env 0x2000 0x100;;
         AddGeneratedCodeRange 0x7010 0x2000 0x100) s = Return tt s' ∧
        ∀ (env' : Env bool) (info : unit) (context : Z),
          returned (IsInGeneratedCode example_GetFaultPc true env' info context s') =
          returned (IsInGeneratedCode example_GetFaultPc true env' info context s).
Proof.
  cbv zeta.
  assert (∀ s1, RemoveGeneratedCodeRange (example_env example_runnable true)
                  0x2000 0x100 example_three_ranges = Return tt s1 →
                memory s1 !! 0x7010 = None) as Hfree.
  { intros s1 Hs1. vm_compute in Hs1. injection Hs1 as <-.
    vm_compute. reflexivity. }
  split.
  - split_and!; [apply example_three_ranges_registry | reflexivity
                 | vm_compute; reflexivity | discriminate | exact Hfree].
  - apply (X8_remove_then_add_restores_lookups example_GetFaultPc true
             (example_env example_runnable true) (mkRuntime true true)
             example_three_ranges [0x7020; 0x7010; 0x7000] 0x2000 0x100
             [(0x3000, 0x100); (0x1000, 0x100)] 0x7010);
      [apply example_three_ranges_registry | reflexivity
       | vm_compute; reflexivity | discriminate | exact Hfree].
Defined.

(** X9, witness: two ranges that both start at 0x2000, of 0x100 and of
    0x80 bytes, registered in that order. *)
Lemma X9_same_start_removed_last_in_first_out_witness :
  let env := example_env example_runnable true in
  let s := example_registry in
  ((0x7010 : ptr) ≠ nullptr ∧ (0x7020 : ptr) ≠ nullptr ∧ (0x7010 : ptr) ≠ 0x7020 ∧
   memory s !! 0x7010 = None ∧ memory s !! 0x7020 = None ∧
   registry s [0x7000] ∧ Runtime_Current env = Some (mkRuntime true true)) ∧
  ∃ s2, (AddGeneratedCodeRange 0x7010 0x2000 0x100;;
         AddGeneratedCodeRange 0x7020 0x2000 0x80) s = Return tt s2 ∧
        (∀ n, n ≠ 0x80 →
              ∃ s', RemoveGeneratedCodeRange env 0x2000 n s2 = Abort s') ∧
        ∃ s3 l3, RemoveGeneratedCodeRange env 0x2000 0x80 s2 = Return tt s3 ∧
                 registry s3 l3 ∧
                 ranges_of (memory s3) l3 =
                   (0x2000, 0x100) :: ranges_of (memory s) [0x7000].
Proof.
  cbv zeta. split.
  - split_and!; [discriminate | discriminate | discriminate | reflexivity
                 | reflexivity | apply example_registry_list | reflexivity].
  - apply (X9_same_start_removed_last_in_first_out
             (example_env example_runnable true) (mkRuntime true true)
             example_registry [0x7000] 0x7010 0x7020 0x2000 0x100 0x80);
      [discriminate | discriminate | discriminate | reflexivity | reflexivity
       | apply example_registry_list | reflexivity].
Defined.

(** X10, witness: after the middle one of the three ranges is removed the
    lookup runs over the two that are left. *)
Lemma X10_lookup_after_remove_witness :
  let env := example_env example_runnable true in
  let s := example_three_ranges in
  (registry s [0x7020; 0x7010; 0x7000] ∧
   Runtime_Current env = Some (mkRuntime true true) ∧
   erase_start 0x2000 (ranges_of (memory s) [0x7020; 0x7010; 0x7000]) =
     Some (0x100, [(0x3000, 0x100); (0x1000, 0x100)])) ∧
  ∃ s', RemoveGeneratedCodeRange env 0x2000 0x100 s = Return tt s' ∧
        ∀ (env' : Env bool) (info : unit) (context : Z),
          IsInGeneratedCode example_GetFaultPc true env' info context s' =
          Return (passes_guards example_GetFaultPc true env' info context &&
                  existsb (range_in (example_GetFaultPc info context))
                    [(0x3000, 0x100); (0x1000, 0x100)]) s'.
Proof.
  cbv zeta. split.
  - split_and!; [apply example_three_ranges_registry | reflexivity
                 | vm_compute; reflexivity].
  - apply (X10_lookup_after_remove example_GetFaultPc true
             (example_env example_runnable true) (mkRuntime true true)
             example_three_ranges [0x7020; 0x7010; 0x7000] 0x2000 0x100
             [(0x3000, 0x100); (0x1000, 0x100)]);
      [apply example_three_ranges_registry | reflexivity
       | vm_compute; reflexivity].
Defined.

(** X11, witness: shutting down the manager with one range, three
    generated-code handlers and one other handler. *)
Lemma X11_shutdown_frees_everything_witness :
  let s := example_handlers in
  (initialized_ s = true ∧ registry s [0x7000]) ∧
  ∃ s', Shutdown s = Return tt s' ∧
        registry s' [] ∧
        (∀ p : ptr, p ∈ [0x7000] → memory s' !! p = None) ∧
        (∀ x : ptr, (x ∉ [0x7000]) → memory s' !! x = memory s !! x) ∧
        generated_code_handlers_ s' = [] ∧ other_handlers_ s' = [] ∧
        initialized_ s' = false ∧
        trace s' = trace s ++ [Ev_RemoveSpecialSignalHandlerFn] ++
                   (Ev_delete_handler <$> generated_code_handlers_ s) ++
                   (Ev_delete_handler <$> other_handlers_ s) ∧
        ∀ (env : Env bool) (info : unit) (context : Z),
          IsInGeneratedCode example_GetFaultPc true env info context s' =
          Return false s'.
Proof.
  cbv zeta. split.
  - split; [reflexivity | apply example_handlers_list].
  - apply (X11_shutdown_frees_everything example_GetFaultPc true
             example_handlers [0x7000]);
      [reflexivity | apply example_handlers_list].
Defined.

(** X12, witness: releasing and then shutting down the manager with one
    range and four handlers. *)
Lemma X12_shutdown_after_release_frees_nothing_witness :
  let s := example_handlers in
  ∃ s', Release s = Return tt s' ∧ Shutdown s' = Return tt s' ∧
        memory s' = memory s ∧
        generated_code_ranges_ s' = generated_code_ranges_ s ∧
        generated_code_handlers_ s' = [1; 2; 3] ∧
        other_handlers_ s' = [5].
Proof.
  cbv zeta.
  exact (proj1 (X12_shutdown_after_release_frees_nothing example_handlers)).
Defined.

(** X13, witness: a manager that is not initialised yet. *)
Lemma X13_init_release_round_trip_witness :
  let env := example_env example_runnable true in
  let s := set_initialized_ false example_handlers in
  initialized_ s = false ∧
  ∃ s1 s2,
    Init env s = Return tt s1 ∧ initialized_ s1 = true ∧
    Release s1 = Return tt s2 ∧ same_manager s s2 ∧
    trace s2 =
      trace s ++
      [Ev_AddSpecialSignalHandlerFn; Ev_membarrier kRegisterPrivateExpedited] ++
      (if membarrier env kRegisterPrivateExpedited =? 0 then []
       else [Ev_LOG_WARNING]) ++
      [Ev_RemoveSpecialSignalHandlerFn].
Proof.
  cbv zeta. split; [reflexivity|].
  apply (X13_init_release_round_trip (example_env example_runnable true)
           (set_initialized_ false example_handlers)).
  reflexivity.
Defined.

(** X14, witness: handler 2 is removed from between 1 and 3. *)
Lemma X14_remove_handler_erases_first_occurrence_witness :
  let s := example_handlers in
  ((2 ∉ [1]) ∧ generated_code_handlers_ s = [1] ++ 2 :: [3]) ∧
  RemoveHandler 2 s = Return tt (set_generated_code_handlers_ ([1] ++ [3]) s).
Proof.
  cbv zeta.
  assert (2 ∉ [1]) as Hnotin.
  { apply not_elem_of_cons. split; [discriminate | apply not_elem_of_nil]. }
  split.
  - split; [exact Hnotin | reflexivity].
  - apply (proj1 (X14_remove_handler_erases_first_occurrence example_handlers
                    2 [1] [3] Hnotin)).
    reflexivity.
Defined.

(** X15, witness: handler 7 is constructed and removed again on a manager
    that does not know it. *)
Lemma X15_construct_then_remove_handler_witness :
  let env := example_env example_runnable true in
  let s := example_handlers in
  ((7 ∉ generated_code_handlers_ s) ∧ (7 ∉ other_handlers_ s) ∧
   (kIsDebugBuild env = false ∨ initialized_ s = true)) ∧
  (NullPointerHandler_new env 7;; RemoveHandler 7) s = Return tt s ∧
  (SuspensionHandler_new env 7;; RemoveHandler 7) s = Return tt s ∧
  (StackOverflowHandler_new env 7;; RemoveHandler 7) s = Return tt s ∧
  (JavaStackTraceHandler_new env 7;; RemoveHandler 7) s = Return tt s.
Proof.
  cbv zeta.
  assert (7 ∉ generated_code_handlers_ example_handlers) as Hgen.
  { repeat (apply not_elem_of_cons; split; [discriminate|]).
    apply not_elem_of_nil. }
  assert (7 ∉ other_handlers_ example_handlers) as Hother.
  { repeat (apply not_elem_of_cons; split; [discriminate|]).
    apply not_elem_of_nil. }
  split.
  - split_and!; [exact Hgen | exact Hother | right; reflexivity].
  - apply (X15_construct_then_remove_handler
             (example_env example_runnable true) example_handlers 7);
      [exact Hgen | exact Hother | right; reflexivity].
Defined.

(** X16, witness: a fault at 0x1050, inside the registered range, that the
    second generated-code handler claims. *)
Lemma X16_dispatch_outcome_witness :
  let env := example_env example_runnable true in
  let Action := example_Action (λ h, h =? 2) in
  let s := example_handlers in
  registry s [0x7000] ∧
  HandleFault example_GetFaultPc Action true env 11 tt 0x1050 s =
    Return true (after_calls [Ev_Action 1; Ev_Action 2] s) ∧
  last (trace (after_calls [Ev_Action 1; Ev_Action 2] s)) ≠
    Some Ev_art_sigsegv_fault.
Proof.
  cbv zeta.
  destruct (X16_dispatch_outcome example_GetFaultPc
              (example_Action (λ h, h =? 2)) true
              (example_env example_runnable true) 11 tt 0x1050
              example_handlers [0x7000] example_handlers_list)
    as (b & Hb & Hfault & Hlast).
  assert (b = true) as ->.
  { vm_compute in Hb. by injection Hb as <-. }
  split; [apply example_handlers_list|]. split.
  - exact Hfault.
  - intros Hmarker. apply (Hlast true _ Hfault) in Hmarker. discriminate Hmarker.
Defined.

(** X17, witness: the fault that handler 2 claims is still claimed after
    handler 9 is registered as a generated-code handler. *)
Lemma X17_add_handler_keeps_claims_witness :
  let env := example_env example_runnable true in
  let Action := example_Action (λ h, h =? 2) in
  let s := example_handlers in
  let s1 := after_calls [Ev_Action 1; Ev_Action 2] s in
  let s' := set_generated_code_handlers_ [1; 2; 3; 9] s in
  (registry s [0x7000] ∧
   HandleFault example_GetFaultPc Action true env 11 tt 0x1050 s = Return true s1 ∧
   AddHandler env 9 true s = Return tt s') ∧
  ∃ s1', HandleFault example_GetFaultPc Action true env 11 tt 0x1050 s'
         = Return true s1'.
Proof.
  cbv zeta. split.
  - split_and!; [apply example_handlers_list | vm_compute; reflexivity
                 | vm_compute; reflexivity].
  - apply (X17_add_handler_keeps_claims example_GetFaultPc
             (example_Action (λ h, h =? 2)) true
             (example_env example_runnable true) 11 tt 0x1050
             example_handlers [0x7000] 9 true
             (after_calls [Ev_Action 1; Ev_Action 2] example_handlers)
             (set_generated_code_handlers_ [1; 2; 3; 9] example_handlers));
      [apply example_handlers_list | vm_compute; reflexivity
       | vm_compute; reflexivity].
Defined.

(** X18, witness: the misaligned method address 0x5001 is rejected before
    anything is read, and the check of the method at 0x5000 reads the
    method, its class and the class of that class. *)
Lemma X18_IsValidMethod_reads_checked_pointers_witness :
  ((0x5001 =? nullptr) || negb (IsAligned sizeof_pointer 0x5001) = true) ∧
  IsValidMethod 8 example_DeclaringClass example_GetClass 0x5001 =
    ([], Some false) ∧
  (IsValidMethod 8 example_DeclaringClass example_GetClass 0x5000).1 =
    [0x5000; 0x6000; 0x6100] ∧
  IsAligned sizeof_pointer 0x5000 = true ∧
  Forall (λ q, IsAligned 8 q = true) [0x6000; 0x6100].
Proof.
  assert ((0x5001 =? nullptr) || negb (IsAligned sizeof_pointer 0x5001) = true)
    as Hbad by (vm_compute; reflexivity).
  split; [exact Hbad|]. split.
  - apply (proj1 (X18_IsValidMethod_reads_checked_pointers 8
                    example_DeclaringClass example_GetClass 0x5001)).
    exact Hbad.
  - split; [vm_compute; reflexivity|].
    destruct (X18_IsValidMethod_reads_checked_pointers 8
                example_DeclaringClass example_GetClass 0x5000)
      as (_ & _ & _ & Hreads & _).
    destruct (Hreads 0x5000 [0x6000; 0x6100]) as (_ & Hmethod & Hrest).
    + vm_compute. reflexivity.
    + split; [exact Hmethod | exact Hrest].
Defined.

(** X19, witness: the method at 0x5000 is accepted. *)
Lemma X19_IsValidMethod_accepts_witness :
  ((0x5000 : ptr) ≠ nullptr ∧ IsAligned sizeof_pointer 0x5000 = true ∧
   example_DeclaringClass 0x5000 = Some 0x6000 ∧
   example_GetClass 0x6000 = Some 0x6100 ∧
   example_GetClass 0x6100 = Some 0x6100) ∧
  (IsValidMethod 8 example_DeclaringClass example_GetClass 0x5000).2 = Some true.
Proof.
  split.
  - split_and!; [discriminate | reflexivity | reflexivity | reflexivity
                 | reflexivity].
  - apply (X19_IsValidMethod_accepts 8 example_DeclaringClass example_GetClass
             0x5000).
    split; [discriminate|]. split; [reflexivity|].
    exists 0x6000, 0x6100.
    split_and!; [reflexivity | discriminate | reflexivity | reflexivity
                 | discriminate | reflexivity | reflexivity].
Defined.

(** X20, witness: the stack trace handler on a fault at 0x1050, inside the
    registered range, with a stack pointer that is not null. *)
Lemma X20_JavaStackTraceHandler_never_claims_witness :
  let env := example_env example_runnable true in
  let s := example_registry in
  registry s [0x7000] ∧
  JavaStackTraceHandler_Action example_GetFaultPc true example_GetFaultSp env 11
    tt 0x1050 s = Return (false, Some 0x7fff0000) s.
Proof.
  cbv zeta. split; [apply example_registry_list|].
  destruct (proj2 (X20_JavaStackTraceHandler_never_claims example_GetFaultPc
                     true example_GetFaultSp
                     (example_env example_runnable true) 11 tt 0x1050
                     example_registry) [0x7000] example_registry_list)
    as (b & Hb & Haction).
  assert (b = true) as ->.
  { vm_compute in Hb. by injection Hb as <-. }
  exact Haction.
Defined.

(** X21, witness: the Linux values, SIGSEGV = 11, SEGV_MAPERR = 1 and
    SEGV_ACCERR = 2, and the code 2 of signal 11. *)
Lemma X21_SignalCodeName_names_known_codes_witness :
  NoDup [1; 2; 8; 9] ∧
  (SignalCodeName 11 1 2 11 2 ≠ "UNKNOWN"%string ↔
   11 = 11 ∧ 2 ∈ [1; 2; 8; 9]) ∧
  (∀ sig' code', SignalCodeName 11 1 2 11 2 ≠ "UNKNOWN"%string →
                 SignalCodeName 11 1 2 11 2 = SignalCodeName 11 1 2 sig' code' →
                 11 = sig' ∧ 2 = code').
Proof.
  assert (NoDup [1; 2; 8; 9]) as Hlabels.
  { repeat (apply NoDup_cons; split;
            [repeat (apply not_elem_of_cons; split; [discriminate|]);
             apply not_elem_of_nil|]).
    apply NoDup_nil. exact I. }
  split; [exact Hlabels|].
  exact (X21_SignalCodeName_names_known_codes 11 1 2 11 2 Hlabels).
Defined.
